(** * The call-notification agent: a shallow embedding of [headless.ts]

    The repository holds four revisions of one Node.js entry point:
    - [Reply]       src/node/headless.ts: HTTP control endpoint, AI auto-reply;
    - [Cli]         the command-line chat client (first file of part_000);
    - [DigestReply] the digest agent that also answers on the channel
                    (second file of part_000);
    - [Digest]      the stand-alone digest agent (part_001).

    JavaScript strings are sequences of UTF-16 code units; every string
    primitive the program uses ([length], [substring], [indexOf], [split],
    [join]) works on code units, so a string is a list of integers here. *)

From Stdlib Require Import ZArith String Ascii.
From stdpp Require Import base list strings gmap.

Local Open Scope Z_scope.

(** ** JavaScript string primitives *)

Module JS.

Abbreviation code_unit := Z (only parsing).
Abbreviation jsstring := (list Z) (only parsing).

(** A literal of the source. *)
Definition str (s : string) : jsstring :=
  (fun a => Z.of_N (N_of_ascii a)) <$> list_ascii_of_string s.

(** [s.startsWith]-like test used by [indexOf]: does [sep] sit at the
    head of [s]? *)
Fixpoint prefix_b (sep s : jsstring) : bool :=
  match sep, s with
  | [], _ => true
  | _ :: _, [] => false
  | a :: sep', b :: s' => (a =? b) && prefix_b sep' s'
  end.

(** Scan [s], whose first code unit has offset [k], for the first match. *)
Fixpoint find_from (sep s : jsstring) (k : nat) : option nat :=
  if prefix_b sep s then Some k
  else match s with
       | [] => None
       | _ :: s' => find_from sep s' (S k)
       end.

Definition clamp (s : jsstring) (pos : Z) : nat :=
  Z.to_nat (Z.min (Z.max pos 0) (Z.of_nat (length s))).

(** [s.indexOf(sep, pos)]: the least offset at or after the clamped
    [pos] where [sep] occurs, and [-1] when there is none. *)
Definition indexOf (s sep : jsstring) (pos : Z) : Z :=
  let start := clamp s pos in
  match find_from sep (drop start s) start with
  | Some k => Z.of_nat k
  | None => -1
  end.

(** [s.substring(from, to)]: both ends are clamped to [0, length] and
    swapped when out of order. *)
Definition substring (s : jsstring) (from to : Z) : jsstring :=
  let a := clamp s from in
  let b := clamp s to in
  take (Nat.max a b - Nat.min a b) (drop (Nat.min a b) s).

(** [s.substring(from)] *)
Definition substring_from (s : jsstring) (from : Z) : jsstring :=
  substring s from (Z.of_nat (length s)).

(** The loop of [String.prototype.split] for a non-empty separator:
    [i] is the start of the current piece, [lim] the number of pieces
    that may still be appended. *)
Fixpoint split_loop (s sep : jsstring) (i : nat) (lim : nat) : list jsstring :=
  match lim with
  | O => []
  | S lim' =>
      match find_from sep (drop i s) i with
      | None => [drop i s]
      | Some j => take (j - i) (drop i s) :: split_loop s sep (j + length sep) lim'
      end
  end.

(** [s.split(sep, lim)] *)
Definition split (s sep : jsstring) (lim : nat) : list jsstring :=
  match sep with
  | [] => take lim ((fun c => [c]) <$> s)
  | _ :: _ => split_loop s sep 0 lim
  end.

(** [pieces.join(sep)] *)
Fixpoint join (pieces : list jsstring) (sep : jsstring) : jsstring :=
  match pieces with
  | [] => []
  | [p] => p
  | p :: rest => p ++ sep ++ join rest sep
  end.

(** WhiteSpace and LineTerminator of ECMAScript. *)
Definition is_space (c : code_unit) : bool :=
  bool_decide (c ∈ [9; 10; 11; 12; 13; 32; 160; 5760; 8232; 8233; 8239; 8287; 12288; 65279])
  || ((8192 <=? c) && (c <=? 8202)).

(** [s.trimStart()] *)
Fixpoint trimStart (s : jsstring) : jsstring :=
  match s with
  | c :: s' => if is_space c then trimStart s' else s
  | [] => []
  end.

(** [s.trim()] *)
Definition trim (s : jsstring) : jsstring :=
  reverse (trimStart (reverse (trimStart s))).

(** [sep] occurs in [s] at offset [k]. *)
Definition occurs_at (sep s : jsstring) (k : nat) : Prop :=
  take (length sep) (drop k s) = sep.

End JS.

Import JS.

(** ** Values *)

Abbreviation bytes := (list Z) (only parsing).

(** The value of a hex digit, for the characters [0-9a-fA-F]. *)
Definition hex_value (c : Z) : option Z :=
  if (48 <=? c) && (c <=? 57) then Some (c - 48)
  else if (97 <=? c) && (c <=? 102) then Some (c - 87)
  else if (65 <=? c) && (c <=? 70) then Some (c - 55)
  else None.

(** [unhex] of Node's hex decoder.  It takes a byte: of a UTF-16 code
    unit only the low eight bits reach the table of digits, so that
    U+0130 is read as the digit "0" (U+0030). *)
Definition unhex (c : code_unit) : option Z := hex_value (Z.land c 255).

(** [Buffer.from(s, 'hex')]: pairs of code units are decoded from the
    left; decoding stops at the first pair that [unhex] does not read as
    two hex digits, and a trailing single unit is dropped. *)
Fixpoint hex_decode (s : jsstring) : bytes :=
  match s with
  | a :: b :: rest =>
      match unhex a, unhex b with
      | Some x, Some y => (16 * x + y) :: hex_decode rest
      | _, _ => []
      end
  | _ => []
  end.

Inductive error : Type :=
  | TypeError (what : jsstring)   (* a property access on null or undefined *)
  | Error (msg : jsstring)        (* [new Error(msg)] *)
  | Rejected (msg : jsstring).    (* an external collaborator failed *)

(** [err.message] *)
Definition message_of (e : error) : jsstring :=
  match e with TypeError m | Error m | Rejected m => m end.

(** The metadata record of a joined workspace, as far as the program
    touches it. *)
Record WkspMeta : Type := { ignore : bool; meta_rest : jsstring }.

Record ChatMessage : Type :=
  { uuid : jsstring; user : jsstring; ts : Z; message : jsstring }.

(** What [wksp.proj.get(name)] resolves to. *)
Record ProjectInstance : Type :=
  { name : jsstring;
    getFileList : list jsstring;          (* the [path] of every entry *)
    getFile : jsstring -> jsstring }.     (* [getFile(path).getText('text').toString()] *)

(** What [Workspace.setup] resolves to, with its [chat] and [proj]. *)
Record Workspace : Type :=
  { wksp_id : jsstring;
    getChannels : list jsstring;          (* the [name] of every channel *)
    getMessages : jsstring -> list ChatMessage;
    getProjects : list jsstring;          (* the [name] of every project *)
    proj_get : jsstring -> ProjectInstance }.

Record mail : Type :=
  { from : jsstring; to : jsstring; bcc : option jsstring;
    subject : jsstring; html : jsstring }.

(** The body of [POST /agent]. *)
Record request : Type :=
  { wkspName : jsstring; psk : jsstring; channel : jsstring }.

Inductive body : Type :=
  | ok_true (msg : jsstring)       (* [{ ok: true, message }] *)
  | ok_false (err : jsstring).     (* [{ ok: false, error }] *)

(** [globalThis._activeAgent] *)
Inductive slot : Type :=
  | undefined
  | null
  | handle (wkspName : jsstring).

(** A listener registered with [chat.events.on('chat', ...)] or with
    [process.stdin.on('data', ...)]: the closure keeps the workspace
    (for its chat) and the channel name of its agent. *)
Record subscription : Type :=
  { sub_wksp : Workspace; sub_channel : jsstring }.

(** ** The process and its environment *)

Record process : Type :=
  { _activeAgent : slot;
    stats : gmap jsstring WkspMeta;       (* [globalThis._o.stats] *)
    listeners : list subscription;        (* of the ['chat'] events, oldest first *)
    data_listeners : list subscription }. (* of [process.stdin], oldest first *)

Inductive log : Type :=
  | LogJoined (wkspName : jsstring)
  | LogChannels (names : list jsstring)
  | LogNotFound (channelName : jsstring) (names : list jsstring)
  | LogJoinedChannel (channelName : jsstring)
  | LogMessage (m : ChatMessage)
  | LogStopping (previous : jsstring)
  | LogInviteFailed (e : error)
  | LogFatal (e : error)
  | LogUsage
  | LogMailError (e : error)
  | LogMailSent.

(** What the process does to the outside, in order. *)
Inductive event : Type :=
  | Console (l : log)
  | Prompt (question : jsstring)                       (* [askInput] *)
  | Sleep (ms : Z)                                     (* an awaited [setTimeout] *)
  | ConnectTestbed
  | Ndncert (email : jsstring)
  | Join (wkspName label : jsstring) (a b : bool) (psk : bytes)
  | StatsPut (wkspName : jsstring) (m : WkspMeta)
  | Setup (escaped : jsstring)
  | Generate (prompt : jsstring)
  | SendMessage (channelName : jsstring) (m : ChatMessage)
  | SendMail (m : mail)
  | WriteFile (path content : jsstring)
  | Respond (status : Z) (b : body)
  | UnhandledRejection (e : error).

(** The collaborators outside the three source files. *)
Record World : Type :=
  { Workspace_join :
      jsstring -> jsstring -> bool -> bool -> bytes ->
      gmap jsstring WkspMeta -> option error * gmap jsstring WkspMeta;
    Workspace_setup : jsstring -> error + Workspace;
    escapeUrlName : jsstring -> jsstring;
    ai_generate : jsstring -> error + jsstring;
    markdown : jsstring -> jsstring;
    readFileSync : jsstring -> error + jsstring;
    writeFileSync : jsstring -> jsstring -> option error;
    sendMail : mail -> option error;
    stringify : request -> bytes -> jsstring;          (* [JSON.stringify] *)
    askInput : jsstring -> jsstring;
    has_testbed_key : bool;
    get_identity_name : jsstring;
    now : Z }.

(** ** Asynchronous code as a state, exit and exception monad *)

Inductive outcome (A : Type) : Type :=
  | Return (a : A)
  | Throw (e : error)       (* the promise rejects *)
  | Exit (code : Z)         (* [process.exit(code)] *)
  | Forever.                (* awaits a promise that never settles *)
Arguments Return {A} a.
Arguments Throw {A} e.
Arguments Exit {A} code.
Arguments Forever {A}.

Definition M (A : Type) : Type := process -> outcome A * process * list event.

Definition ret {A} (a : A) : M A := fun p => (Return a, p, []).

Definition bind {A B} (m : M A) (f : A -> M B) : M B := fun p =>
  match m p with
  | (Return a, p1, t1) => let '(o, p2, t2) := f a p1 in (o, p2, t1 ++ t2)
  | (Throw e, p1, t1) => (Throw e, p1, t1)
  | (Exit c, p1, t1) => (Exit c, p1, t1)
  | (Forever, p1, t1) => (Forever, p1, t1)
  end.

#[export] Instance M_ret : MRet M := @ret.
#[export] Instance M_bind : MBind M := fun A B f m => bind m f.

Definition emit (e : event) : M unit := fun p => (Return tt, p, [e]).
Definition throw {A} (e : error) : M A := fun p => (Throw e, p, []).
Definition exit {A} (code : Z) : M A := fun p => (Exit code, p, []).
Definition forever {A} : M A := fun p => (Forever, p, []).
Definition read {A} (f : process -> A) : M A := fun p => (Return (f p), p, []).
Definition write (f : process -> process) : M unit := fun p => (Return tt, f p, []).

(** [try { m } catch (err) { h err }] *)
Definition try_catch {A} (m : M A) (h : error -> M A) : M A := fun p =>
  match m p with
  | (Throw e, p1, t1) => let '(o, p2, t2) := h e p1 in (o, p2, t1 ++ t2)
  | r => r
  end.

(** [task(); k]: an async function called without [await].  The caller
    goes on with [k]; the body of [task] runs once the caller yields,
    and its rejection is handled by nobody. *)
Definition no_await {A} (task : M unit) (k : M A) : M A := fun p =>
  match k p with
  | (Exit c, p1, t1) => (Exit c, p1, t1)
  | (o, p1, t1) =>
      match task p1 with
      | (Exit c, p2, t2) => (Exit c, p2, t1 ++ t2)
      | (Throw e, p2, t2) => (o, p2, t1 ++ t2 ++ [UnhandledRejection e])
      | (_, p2, t2) => (o, p2, t1 ++ t2)
      end
  end.

Definition set_activeAgent (s : slot) : M unit :=
  write (fun p => {| _activeAgent := s; stats := stats p; listeners := listeners p;
                     data_listeners := data_listeners p |}).

Definition set_stats (m : gmap jsstring WkspMeta) : M unit :=
  write (fun p => {| _activeAgent := _activeAgent p; stats := m; listeners := listeners p;
                     data_listeners := data_listeners p |}).

(** [chat.events.on('chat', listener)] *)
Definition on_chat (l : subscription) : M unit :=
  write (fun p => {| _activeAgent := _activeAgent p; stats := stats p;
                     listeners := listeners p ++ [l];
                     data_listeners := data_listeners p |}).

(** [process.stdin.on('data', listener)] *)
Definition on_data (l : subscription) : M unit :=
  write (fun p => {| _activeAgent := _activeAgent p; stats := stats p;
                     listeners := listeners p;
                     data_listeners := data_listeners p ++ [l] |}).

(** An awaited call of a collaborator that resolves or rejects. *)
Definition await {A} (r : error + A) : M A :=
  match r with inl e => throw e | inr a => ret a end.

Definition join_call (w : World) (wkspName label : jsstring) (a b : bool) (key : bytes) : M unit :=
  emit (Join wkspName label a b key) ;;
  m ← read stats ;
  let '(r, m') := Workspace_join w wkspName label a b key m in
  set_stats m' ;;
  match r with Some e => throw e | None => ret tt end.

Definition setup_call (w : World) (escaped : jsstring) : M Workspace :=
  emit (Setup escaped) ;; await (Workspace_setup w escaped).

Definition AGENT_ID : jsstring := str "AGENT: ".

(** [wkspMeta.ignore = true] when [wkspMeta] is not an object. *)
Definition NO_METADATA : error :=
  TypeError (str "Cannot set properties of undefined (setting 'ignore')").

(** [channels.find(c => c.name === channelName)] *)
Definition find_channel (channels : list jsstring) (channelName : jsstring) : option jsstring :=
  snd <$> list_find (fun c => c = channelName) channels.

Definition emit_all (es : list event) : M unit := fun p => (Return tt, p, es).

Definition ask (w : World) (question : jsstring) : M jsstring :=
  emit (Prompt question) ;; ret (askInput w question).

(** [if (!channelName) { ...list...; process.exit(0) }] *)
Definition list_channels {A} (channels : list jsstring) : M A :=
  emit (Console (LogChannels channels)) ;; exit 0.

(** The existence check of the channel and the display of its history. *)
Definition enter_channel (wksp : Workspace) (channelName : jsstring) : M unit :=
  match find_channel (getChannels wksp) channelName with
  | None => emit (Console (LogNotFound channelName (getChannels wksp))) ;; exit 1
  | Some _ =>
      emit (Console (LogJoinedChannel channelName)) ;;
      emit_all ((fun m => Console (LogMessage m)) <$> getMessages wksp channelName)
  end.

(** A request handler or a listener started by the event loop: the loop
    survives whatever the callback does, short of [process.exit]. *)
Definition callback (h : M unit) : M unit := fun p =>
  match h p with
  | (Exit c, p1, t1) => (Exit c, p1, t1)
  | (Throw e, p1, t1) => (Return tt, p1, t1 ++ [UnhandledRejection e])
  | (_, p1, t1) => (Return tt, p1, t1)
  end.

(** What the event loop of the server receives. *)
Inductive input : Type :=
  | Post (req : request)                                  (* [POST /agent] *)
  | Chat (wk msgChannelName : jsstring) (m : ChatMessage) (* a ['chat'] event of workspace [wk] *)
  | Stdin (data : jsstring).                              (* a ['data'] event of [process.stdin] *)

(** A ['chat'] event of the chat of workspace [wk]: every listener
    registered on it is called, oldest first. *)
Definition deliver (listener : subscription -> jsstring -> ChatMessage -> M unit)
    (wk msgChannelName : jsstring) (m : ChatMessage) : M unit :=
  ls ← read listeners ;
  foldr (fun l rest =>
           (if decide (wksp_id (sub_wksp l) = wk)
            then callback (listener l msgChannelName m)
            else ret tt) ;; rest)
        (ret tt) ls.

(** A ['data'] event of [process.stdin]: every listener registered on
    it is called, oldest first. *)
Definition deliver_data (typed : subscription -> jsstring -> M unit) (data : jsstring) : M unit :=
  ls ← read data_listeners ;
  foldr (fun l rest => callback (typed l data) ;; rest) (ret tt) ls.

(** Requests, chat events and console input handled one after the
    other. *)
Fixpoint event_loop (post : request -> M unit)
    (listener : subscription -> jsstring -> ChatMessage -> M unit)
    (typed : subscription -> jsstring -> M unit)
    (inputs : list input) : M unit :=
  match inputs with
  | [] => ret tt
  | Post req :: rest => callback (post req) ;; event_loop post listener typed rest
  | Chat wk c m :: rest => deliver listener wk c m ;; event_loop post listener typed rest
  | Stdin data :: rest => deliver_data typed data ;; event_loop post listener typed rest
  end.

(** The block under "Replace existing agent if running" of the three
    [POST /agent] handlers. *)
Definition stop_previous : M unit :=
  active ← read _activeAgent ;
  match active with
  | handle previous => emit (Console (LogStopping previous)) ;; set_activeAgent null
  | _ => ret tt
  end.

Definition PSK_ERROR : error :=
  Error (str "PSK must be exactly 32 bytes (64 hex characters)").

Definition joined_message (r : request) : jsstring :=
  str "Agent joined workspace " ++ wkspName r ++ str " on #" ++ channel r.

(** ** The digest computations (both digest revisions share the text) *)

Definition nl : jsstring := [10].

(** The three loops over projects and files: the document at
    ["/agenda.md"], the last one found, or nothing. *)
Definition fileContents (wksp : Workspace) : option jsstring :=
  foldl (fun found pn =>
           let instance := proj_get wksp pn in
           foldl (fun found path =>
                    if decide (path = str "/agenda.md")
                    then Some (getFile instance path) else found)
                 found (getFileList instance))
        None (getProjects wksp).

Definition thirdHeaderPos (mdText : jsstring) : Z :=
  Z.of_nat (length (join (split mdText (str "##") 3) (str "##"))).

Definition cutText (mdText : jsstring) : jsstring :=
  substring mdText 0 (thirdHeaderPos mdText).

(** [email.substring(0, hr1) + html + email.substring(hr2)] *)
Definition splice (email html : jsstring) : jsstring :=
  let hr1 := indexOf email (str "<hr>") 0 + 4 in
  let hr2 := indexOf email (str "<hr>") hr1 in
  substring email 0 hr1 ++ html ++ substring_from email hr2.

Definition TEMPLATE : jsstring := str "./mail-template.html".

(** [fileContents.getText] when [fileContents] is [undefined]. *)
Definition NO_DOCUMENT : error :=
  TypeError (str "Cannot read properties of undefined (reading 'getText')").

(** From the read of the document to the spliced mail body. *)
Definition digest_email (w : World) (wksp : Workspace) : M jsstring :=
  let found := fileContents wksp in
  emit (Sleep 20000) ;;
  match found with
  | None => throw NO_DOCUMENT
  | Some mdText =>
      let html := markdown w (cutText mdText) in
      email ← await (readFileSync w TEMPLATE) ;
      ret (splice email html)
  end.

(** ** The command-line client (part_000, first file) *)

Module Cli.

Definition setupWorkspace (w : World) (wkspName : jsstring) (key : bytes) : M Workspace :=
  wkspMeta ← read (fun p => stats p !! wkspName) ;
  match wkspMeta with
  | None => join_call w wkspName wkspName false false key
  | Some _ => ret tt
  end ;;
  setup_call w (escapeUrlName w wkspName).

(** [/^[0-9a-fA-F]+$/.test(s)] *)
Definition is_hex (s : jsstring) : bool :=
  match s with
  | [] => false
  | _ => forallb (fun c => bool_decide (is_Some (hex_value c))) s
  end.

Record args : Type :=
  { arg_wkspName : jsstring;
    arg_channelName : option jsstring;
    arg_email : option jsstring;
    arg_pskHex : option jsstring }.

(** The positional arguments after the workspace name, read from the
    right: a 64-digit hex key, then an address, then the channel. *)
Definition parse (argv : list jsstring) : args :=
  let remainingArgs := drop 3 argv in
  let '(pskHex, remainingArgs) :=
    match last remainingArgs with
    | Some lastArg =>
        if (length lastArg =? 64)%nat && is_hex lastArg
        then (Some lastArg, removelast remainingArgs)
        else (None, remainingArgs)
    | None => (None, remainingArgs)
    end in
  let '(email, remainingArgs) :=
    match last remainingArgs with
    | Some secondLastArg =>
        if bool_decide (64 ∈ secondLastArg)
        then (Some secondLastArg, removelast remainingArgs)
        else (None, remainingArgs)
    | None => (None, remainingArgs)
    end in
  {| arg_wkspName := default [] (argv !! 2%nat);
     arg_channelName := head remainingArgs;
     arg_email := email;
     arg_pskHex := pskHex |}.

(** [if (!x) x = await askInput(question)] *)
Definition or_ask (w : World) (x : option jsstring) (question : jsstring) : M jsstring :=
  match x with
  | Some ((_ :: _) as s) => ret s
  | _ => ask w question
  end.

Definition main (w : World) (argv : list jsstring) : M unit :=
  if (length argv <? 3)%nat then emit (Console LogUsage) ;; exit 1
  else
    let a := parse argv in
    email ← or_ask w (arg_email a) (str "Enter email address: ") ;
    pskHex ← or_ask w (arg_pskHex a) (str "Enter workspace PSK (32 bytes hex): ") ;
    let pskBuffer := hex_decode pskHex in
    if negb (length pskBuffer =? 32)%nat then throw PSK_ERROR
    else
      try_catch
        (emit ConnectTestbed ;;
         (if has_testbed_key w then ret tt else emit (Ndncert email)) ;;
         wksp ← setupWorkspace w (arg_wkspName a) pskBuffer ;
         emit (Console (LogJoined (arg_wkspName a))) ;;
         emit (Sleep 2000) ;;
         match arg_channelName a with
         | Some ((_ :: _) as channelName) =>
             enter_channel wksp channelName ;;
             on_chat {| sub_wksp := wksp; sub_channel := channelName |} ;;
             on_data {| sub_wksp := wksp; sub_channel := channelName |} ;;
             forever
         | _ => list_channels (getChannels wksp)
         end)
        (fun e => emit (Console (LogFatal e)) ;; exit 1).

End Cli.

(** ** The AI-reply agent (src/node/headless.ts) *)

Module Reply.

Definition setupWorkspace := Cli.setupWorkspace.

(** The listener of [startAgent]. *)
Definition onChat (w : World) (channelName msgChannelName : jsstring) (m : ChatMessage) : M unit :=
  if decide (msgChannelName = channelName) then
    emit (Console (LogMessage m)) ;;
    if decide (substring (message m) 0 7 ≠ AGENT_ID) then
      emit (Generate (message m)) ;;
      text ← await (ai_generate w (message m)) ;
      let text := AGENT_ID ++ text in
      emit (SendMessage channelName
              {| uuid := []; user := get_identity_name w; ts := now w; message := text |})
    else ret tt
  else ret tt.

Definition startAgent (w : World) (wkspName : jsstring) (key : bytes) (channelName : jsstring) : M unit :=
  wksp ← setupWorkspace w wkspName key ;
  emit (Console (LogJoined wkspName)) ;;
  emit (Sleep 2000) ;;
  match channelName with
  | [] => list_channels (getChannels wksp)
  | _ =>
      enter_channel wksp channelName ;;
      on_chat {| sub_wksp := wksp; sub_channel := channelName |} ;;
      forever
  end.

(** The handler of [app.post('/agent', ...)]. *)
Definition post_agent (w : World) (req : request) : M unit :=
  let pskBuffer := hex_decode (psk req) in
  if negb (length pskBuffer =? 32)%nat then throw PSK_ERROR
  else
    try_catch
      (stop_previous ;;
       startAgent w (wkspName req) pskBuffer (channel req) ;;
       emit (Respond 200 (ok_true (joined_message req))))
      (fun err =>
         emit (Console (LogInviteFailed err)) ;;
         emit (Respond 500 (ok_false (message_of err)))).

(** The server process: the handler and the listeners of its agents.
    This revision registers no listener on [process.stdin]. *)
Definition run (w : World) : list input -> M unit :=
  event_loop (post_agent w) (fun l => onChat w (sub_channel l)) (fun _ _ => ret tt).

End Reply.

(** ** The digest agent that answers on the channel (part_000, second file) *)

Module DigestReply.

Definition setupWorkspace (w : World) (wkspName : jsstring) (key : bytes) : M Workspace :=
  wkspMeta ← read (fun p => stats p !! wkspName) ;
  match wkspMeta with
  | None => join_call w wkspName wkspName false true key
  | Some _ => ret tt
  end ;;
  (* wkspMeta.ignore = true *)
  match wkspMeta with
  | None => throw NO_METADATA
  | Some meta =>
      let meta := {| ignore := true; meta_rest := meta_rest meta |} in
      emit (StatsPut wkspName meta) ;;
      m ← read stats ;
      set_stats (<[wkspName := meta]> m)
  end ;;
  setup_call w (escapeUrlName w wkspName).

(** The report the agent posts: project names, file paths, the mail. *)
Definition report_head (wksp : Workspace) : jsstring :=
  let text := AGENT_ID ++ nl ++ str "Projects: " in
  let text :=
    foldl (fun text pn => text ++ nl ++ name (proj_get wksp pn)) text (getProjects wksp) in
  let text := text ++ nl ++ nl ++ str "Files: " ++ nl in
  let text :=
    foldl (fun text pn =>
             foldl (fun text path => text ++ str " " ++ path) text
                   (getFileList (proj_get wksp pn)) ++ nl)
          text (getProjects wksp) in
  text ++ nl ++ nl ++ str "agenda.md:" ++ nl.

Definition mailOptions (email : jsstring) : mail :=
  {| from := str "ownly-bot";
     to := str "nfd-dev@lists.cs.ucla.edu";
     bcc := Some (str "bradlowe@g.ucla.edu");
     subject := str "NDN Weekly Call";
     html := email |}.

(** The listener of [startAgent].  The mail is handed to the transport
    with a callback and the report is published right away; the
    callback logs the outcome once the transport is done. *)
Definition onChat (w : World) (wksp : Workspace) (channelName msgChannelName : jsstring)
    (m : ChatMessage) : M unit :=
  if decide (msgChannelName = channelName) then
    emit (Console (LogMessage m)) ;;
    if decide (substring (message m) 0 7 ≠ AGENT_ID) then
      let text := report_head wksp in
      email ← digest_email w wksp ;
      let text := text ++ str "Sending the following email: " ++ nl in
      let text := text ++ email in
      emit (SendMail (mailOptions email)) ;;
      emit (SendMessage channelName
              {| uuid := []; user := get_identity_name w; ts := now w; message := text |}) ;;
      emit (Console (match sendMail w (mailOptions email) with
                     | Some error => LogMailError error
                     | None => LogMailSent
                     end))
    else ret tt
  else ret tt.

(** The listener of [process.stdin]: what is typed at the console is
    published on the channel as it is, trimmed. *)
Definition onData (w : World) (channelName : jsstring) (data : jsstring) : M unit :=
  let input := trim data in
  match input with
  | [] => ret tt
  | _ =>
      emit (SendMessage channelName
              {| uuid := []; user := get_identity_name w; ts := now w; message := input |})
  end.

Definition startAgent (w : World) (wkspName : jsstring) (key : bytes) (channelName : jsstring) : M unit :=
  wksp ← setupWorkspace w wkspName key ;
  emit (Console (LogJoined wkspName)) ;;
  emit (Sleep 2000) ;;
  match channelName with
  | [] => list_channels (getChannels wksp)
  | _ =>
      enter_channel wksp channelName ;;
      on_chat {| sub_wksp := wksp; sub_channel := channelName |} ;;
      on_data {| sub_wksp := wksp; sub_channel := channelName |} ;;
      forever
  end.

(** The handler of [app.post('/agent', ...)]: [startAgent] is called
    without [await]. *)
Definition post_agent (w : World) (req : request) : M unit :=
  let pskBuffer := hex_decode (psk req) in
  if negb (length pskBuffer =? 32)%nat then throw PSK_ERROR
  else
    try_catch
      (stop_previous ;;
       no_await (startAgent w (wkspName req) pskBuffer (channel req))
                (emit (Respond 200 (ok_true (joined_message req)))))
      (fun err =>
         emit (Console (LogInviteFailed err)) ;;
         emit (Respond 500 (ok_false (message_of err)))).

Definition run (w : World) : list input -> M unit :=
  event_loop (post_agent w) (fun l => onChat w (sub_wksp l) (sub_channel l))
             (fun l => onData w (sub_channel l)).

End DigestReply.

(** ** The stand-alone digest agent (part_001) *)

Module Digest.

Definition setupWorkspace := DigestReply.setupWorkspace.

Definition mailOptions (email : jsstring) : mail :=
  {| from := str "ownly.agent@gmail.com";
     to := str "bradlowe@g.ucla.edu";
     bcc := None;
     subject := str "NDN Weekly Call";
     html := email |}.

(** The listener of [startAgent]: the text of the message is not read. *)
Definition onChat (w : World) (wksp : Workspace) (channelName msgChannelName : jsstring)
    (m : ChatMessage) : M unit :=
  if decide (msgChannelName = channelName) then
    email ← digest_email w wksp ;
    emit (SendMail (mailOptions email)) ;;
    match sendMail w (mailOptions email) with
    | Some error => emit (Console (LogMailError error))
    | None => emit (Console LogMailSent) ;; exit 0
    end
  else ret tt.

Definition startAgent (w : World) (wkspName : jsstring) (key : bytes) (channelName : jsstring) : M unit :=
  wksp ← setupWorkspace w wkspName key ;
  emit (Console (LogJoined wkspName)) ;;
  emit (Sleep 2000) ;;
  match channelName with
  | [] => list_channels (getChannels wksp)
  | _ =>
      on_chat {| sub_wksp := wksp; sub_channel := channelName |} ;;
      emit (SendMessage channelName
              {| uuid := []; user := get_identity_name w; ts := now w; message := str "input" |}) ;;
      forever
  end.

(** The handler of [app.post('/agent', ...)]: the request is recorded
    in [./wksp.env], then [startAgent] is called without [await]. *)
Definition post_agent (w : World) (req : request) : M unit :=
  let pskBuffer := hex_decode (psk req) in
  if negb (length pskBuffer =? 32)%nat then throw PSK_ERROR
  else
    try_catch
      (stop_previous ;;
       let content := stringify w req pskBuffer in
       emit (WriteFile (str "./wksp.env") content) ;;
       match writeFileSync w (str "./wksp.env") content with
       | Some e => throw e
       | None => ret tt
       end ;;
       no_await (startAgent w (wkspName req) pskBuffer (channel req))
                (emit (Respond 200 (ok_true (joined_message req)))))
      (fun err =>
         emit (Console (LogInviteFailed err)) ;;
         emit (Respond 500 (ok_false (message_of err)))).

(** The server process, as [main] starts it when [./wksp.env] cannot
    be read or parsed: the handler and the listeners of its agents.
    This revision registers no listener on [process.stdin].  The other
    branch of [main] (part_001:35-39), which hands the fields parsed
    from [./wksp.env] to [startAgent] as they are, is not part of it. *)
Definition run (w : World) : list input -> M unit :=
  event_loop (post_agent w) (fun l => onChat w (sub_wksp l) (sub_channel l))
             (fun _ _ => ret tt).

End Digest.

(** ** Words of the specification *)

(** The start offsets of the level-2-heading marker in a text, found
    as a reader finds them: left to right, the search resuming after
    each marker. *)
Fixpoint marker_offsets (s : jsstring) (off : nat) : list nat :=
  match s with
  | a :: (b :: rest) as tl =>
      if (a =? 35) && (b =? 35) then off :: marker_offsets rest (off + 2)
      else marker_offsets tl (off + 1)
  | _ => []
  end.

(** The text starts with the sentinel prefix. *)
Definition starts_with (prefix s : jsstring) : Prop := ∃ rest, s = prefix ++ rest.

(** Nothing that reaches the network or the sync service. *)
Definition is_local (e : event) : Prop :=
  match e with Console _ | Prompt _ => True | _ => False end.

Definition is_stopping (e : event) : Prop :=
  match e with Console (LogStopping _) => True | _ => False end.

Definition is_handle (s : slot) : Prop :=
  match s with handle _ => True | _ => False end.

(** The process as [main] leaves it before the first request. *)
Definition fresh (m : gmap jsstring WkspMeta) : process :=
  {| _activeAgent := undefined; stats := m; listeners := []; data_listeners := [] |}.

(** The key [Cli.main] validates: the last argument when it is 64 hex
    digits, the answer typed at the prompt otherwise. *)
Definition cli_pskHex (w : World) (argv : list jsstring) : jsstring :=
  match Cli.arg_pskHex (Cli.parse argv) with
  | Some ((_ :: _) as s) => s
  | _ => askInput w (str "Enter workspace PSK (32 bytes hex): ")
  end.

Definition hr : jsstring := str "<hr>".

(** What the splice yields from a template that lacks a delimiter. *)
Inductive malformed (email html : jsstring) : jsstring -> Prop :=
  | no_delimiter :
      (∀ q, ¬ occurs_at hr email q) ->
      malformed email html (take 3 email ++ html ++ email)
  | one_delimiter (k : nat) :
      occurs_at hr email k ->
      (∀ q, q ≠ k -> ¬ occurs_at hr email q) ->
      malformed email html (take (k + 4) email ++ html ++ email).

Definition slot_after {A} (r : outcome A * process * list event) : slot :=
  _activeAgent r.1.2.

Definition listeners_after {A} (r : outcome A * process * list event) : list subscription :=
  listeners r.1.2.

(** What every step of the program keeps, from the process [p] to
    the process [p'] with the events [t]: the slot is left as it was, or
    a handle in it is replaced by [null]; a step that starts without a
    handle in the slot logs no stop; no listener is ever removed. *)
Definition step_ok (p p' : process) (t : list event) : Prop :=
  (_activeAgent p' = _activeAgent p
   ∨ (is_handle (_activeAgent p) ∧ _activeAgent p' = null)) ∧
  (¬ is_handle (_activeAgent p) -> Forall (fun e => ¬ is_stopping e) t) ∧
  listeners p `prefix_of` listeners p'.

Definition steady {A} (m : M A) : Prop :=
  ∀ p, let '(_, p', t) := m p in step_ok p p' t.

(** ** A small world to run the agents in *)

Definition zero_psk : jsstring := concat (replicate 32 (str "00")).

Definition notes (md : jsstring) : ProjectInstance :=
  {| name := str "notes";
     getFileList := [str "/readme.md"; str "/agenda.md"];
     getFile := fun _ => md |}.

Definition demo_wksp (projects : list jsstring) (md id : jsstring) : Workspace :=
  {| wksp_id := id;
     getChannels := [str "general"];
     getMessages := fun _ => [];
     getProjects := projects;
     proj_get := fun _ => notes md |}.

(** Every collaborator succeeds; [join] records the workspace. *)
Definition demo (projects : list jsstring) (md template : jsstring) : World :=
  {| Workspace_join := fun n _ _ b _ m =>
       (None, <[n := {| ignore := b; meta_rest := [] |}]> m);
     Workspace_setup := fun id => inr (demo_wksp projects md id);
     escapeUrlName := fun n => n;
     ai_generate := fun prompt => inr (str "pong");
     markdown := fun md => md;
     readFileSync := fun _ => inr template;
     writeFileSync := fun _ _ => None;
     sendMail := fun _ => None;
     stringify := fun _ _ => [];
     askInput := fun _ => str "00";
     has_testbed_key := true;
     get_identity_name := str "bot";
     now := 0 |}.

Definition say (text : string) : ChatMessage :=
  {| uuid := str "1"; user := str "alice"; ts := 1; message := str text |}.

Definition agenda_md : jsstring := str "# Call## A## B## C".
Definition good_template : jsstring := str "<p>Hi</p><hr>old<hr><p>Bye</p>".
Definition bad_template : jsstring := str "<p>Hi</p><hr>old".

Definition start (name : string) : request :=
  {| wkspName := str name; psk := zero_psk; channel := str "general" |}.


(** ** Words for the properties of the program as a whole *)

(** One of the characters [0-9a-fA-F]. *)
Definition hexdigit (c : code_unit) : Prop := is_Some (hex_value c).

(** A code unit the hex decoder takes for a digit: its low byte is the
    code of a hex digit, whatever its high byte. *)
Definition read_as_digit (c : code_unit) : Prop := hexdigit (Z.land c 255).

(** The keys the length check of the entry points lets through: 64
    code units read as digits at the head, not followed by a 33rd pair
    of them. *)
Definition accepted_key (s : jsstring) : Prop :=
  ((64 ≤ length s)%nat ∧ Forall read_as_digit (take 64 s)) ∧
  ¬ ((66 ≤ length s)%nat ∧ Forall read_as_digit (take 66 s)).

(** Every event of every run of [m] satisfies [P]. *)
Definition emits {A} (P : event -> Prop) (m : M A) : Prop :=
  ∀ p, Forall P (m p).2.

(** [m] never resolves: it rejects, exits or waits forever. *)
Definition never_returns {A} (m : M A) : Prop :=
  ∀ p a, (m p).1.1 ≠ Return a.

(** The answers written to the HTTP response, in order. *)
Definition responses (t : list event) : list (Z * body) :=
  omap (fun e => match e with Respond s b => Some (s, b) | _ => None end) t.

Definition is_byte (b : Z) : Prop := 0 ≤ b < 256.

(** A call [Workspace.join(wkspName, wkspName, false, flag, psk)] as
    an entry point issues it: the workspace name in the first two
    places, [false] in the third, the flag of the revision in the
    fourth, and 32 bytes as the key in the fifth. *)
Definition join_as (relaxed : bool) (e : event) : Prop :=
  match e with
  | Join n l a b key =>
      l = n ∧ a = false ∧ b = relaxed ∧ length key = 32%nat ∧ Forall is_byte key
  | _ => True
  end.

Definition carries_sentinel (e : event) : Prop :=
  match e with
  | SendMessage _ m => starts_with AGENT_ID (message m)
  | _ => True
  end.

Definition no_mail (e : event) : Prop :=
  match e with SendMail _ => False | _ => True end.

Definition no_generation (e : event) : Prop :=
  match e with Generate _ => False | _ => True end.

(** What the replying digest agent publishes: its own reports, which
    start with the sentinel, and what was typed at its console. *)
Definition report_or_typed (inputs : list input) (e : event) : Prop :=
  match e with
  | SendMessage _ m =>
      starts_with AGENT_ID (message m)
      ∨ ∃ data, Stdin data ∈ inputs ∧ message m = trim data
  | _ => True
  end.

Definition only_the_trigger (e : event) : Prop :=
  match e with
  | SendMessage _ m => message m = str "input"
  | _ => True
  end.

Definition no_response (e : event) : Prop :=
  match e with Respond _ _ => False | _ => True end.

(** The projects whose file list holds the agenda, in the order of
    [getProjects]. *)
Definition agenda_holders (wksp : Workspace) : list jsstring :=
  filter (fun pn => str "/agenda.md" ∈ getFileList (proj_get wksp pn)) (getProjects wksp).

(** A listener of the chat of workspace [wk] for the channel [c]. *)
Definition listens_to (wk c : jsstring) (l : subscription) : Prop :=
  wksp_id (sub_wksp l) = wk ∧ sub_channel l = c.

Definition ENV_FILE : jsstring := str "./wksp.env".

(** A world whose sync service rejects every join. *)
Definition offline : World :=
  {| Workspace_join := fun _ _ _ _ _ m => (Some (Rejected (str "no route")), m);
     Workspace_setup := Workspace_setup (demo [] [] []);
     escapeUrlName := escapeUrlName (demo [] [] []);
     ai_generate := ai_generate (demo [] [] []);
     markdown := markdown (demo [] [] []);
     readFileSync := readFileSync (demo [] [] []);
     writeFileSync := writeFileSync (demo [] [] []);
     sendMail := sendMail (demo [] [] []);
     stringify := stringify (demo [] [] []);
     askInput := askInput (demo [] [] []);
     has_testbed_key := true;
     get_identity_name := get_identity_name (demo [] [] []);
     now := 0 |}.

(** * Properties *)

(** ** The string primitives *)

Section Strings.

Implicit Types s sep t : jsstring.

Lemma prefix_b_occurs sep s : prefix_b sep s = true ↔ take (length sep) s = sep.
Proof.
  revert s. induction sep as [|a sep IH]; intros s; simpl.
  - by rewrite take_0.
  - destruct s as [|b s]; simpl; [done|].
    rewrite andb_true_iff, Z.eqb_eq, IH. split.
    + intros [-> ->]. done.
    + intros [= -> ->]. done.
Qed.

Lemma prefix_b_drop sep s k : prefix_b sep (drop k s) = true ↔ occurs_at sep s k.
Proof. apply prefix_b_occurs. Qed.

Lemma prefix_b_absent sep s k : ¬ occurs_at sep s k -> prefix_b sep (drop k s) = false.
Proof. rewrite <- prefix_b_drop. by destruct (prefix_b _ _). Qed.

Lemma find_from_ge sep s k j : find_from sep s k = Some j -> (k ≤ j)%nat.
Proof.
  revert k. induction s as [|c s IH]; intros k; simpl.
  - destruct (prefix_b sep []); [intros [= <-]; lia | done].
  - destruct (prefix_b sep (c :: s)); [intros [= <-]; lia |].
    intros H%IH. lia.
Qed.

(** The first occurrence, when there is one. *)
Lemma find_from_first sep s k j :
  occurs_at sep s j ->
  (∀ q, (q < j)%nat -> ¬ occurs_at sep s q) ->
  find_from sep s k = Some (k + j)%nat.
Proof.
  revert s k. induction j as [|j IH]; intros s k Hj Hbefore.
  - apply prefix_b_drop in Hj. rewrite drop_0 in Hj.
    destruct s; simpl in *; rewrite Hj; f_equal; lia.
  - destruct s as [|c s].
    + exfalso. apply (Hbefore 0%nat); [lia|].
      unfold occurs_at in *. by rewrite drop_nil in *.
    + simpl. rewrite <- (drop_0 (c :: s)), prefix_b_absent by (apply Hbefore; lia).
      rewrite (IH s (S k)); [f_equal; lia | exact Hj |].
      intros q Hq. apply (Hbefore (S q)). lia.
Qed.

Lemma find_from_none sep s k :
  (∀ q, ¬ occurs_at sep s q) -> find_from sep s k = None.
Proof.
  revert k. induction s as [|c s IH]; intros k Hno; simpl.
  - rewrite <- (drop_0 []), prefix_b_absent; done.
  - rewrite <- (drop_0 (c :: s)), prefix_b_absent by done.
    apply IH. intros q. apply (Hno (S q)).
Qed.

Lemma find_from_occurs sep s k j :
  find_from sep s k = Some j -> occurs_at sep s (j - k).
Proof.
  revert k. induction s as [|c s IH]; intros k; simpl.
  - destruct (prefix_b sep []) eqn:E; [|done].
    intros [= <-]. apply prefix_b_drop. by rewrite Nat.sub_diag, drop_0.
  - destruct (prefix_b sep (c :: s)) eqn:E.
    + intros [= <-]. apply prefix_b_drop. by rewrite Nat.sub_diag, drop_0.
    + intros H. pose proof (find_from_ge _ _ _ _ H). apply IH in H.
      replace (j - k)%nat with (S (j - S k)) by lia. exact H.
Qed.

Lemma occurs_at_split sep s k :
  occurs_at sep s k -> drop k s = sep ++ drop (k + length sep) s.
Proof.
  intros H. rewrite <- (take_drop (length sep) (drop k s)) at 1.
  unfold occurs_at in H. by rewrite H, drop_drop.
Qed.

Lemma occurs_at_length sep s k :
  sep ≠ [] -> occurs_at sep s k -> (k + length sep ≤ length s)%nat.
Proof.
  intros Hsep H. assert (0 < length sep)%nat by (destruct sep; [done | simpl; lia]).
  assert (length (take (length sep) (drop k s)) = length sep) as E
    by (by rewrite H).
  rewrite length_take, length_drop in E. lia.
Qed.

Lemma occurs_at_lookup sep s k i c :
  occurs_at sep s k -> sep !! i = Some c -> s !! (k + i)%nat = Some c.
Proof.
  intros H Hi. rewrite <- lookup_drop, (occurs_at_split _ _ _ H).
  by apply lookup_app_l_Some.
Qed.

Lemma clamp_nat s (k : nat) : clamp s (Z.of_nat k) = Nat.min k (length s).
Proof. unfold clamp. lia. Qed.

Lemma substring_take s (k : nat) : substring s 0 (Z.of_nat k) = take k s.
Proof.
  unfold substring. change 0 with (Z.of_nat 0). rewrite !clamp_nat. simpl.
  rewrite Nat.sub_0_r, drop_0. destruct (decide (k ≤ length s)%nat).
  - by rewrite Nat.min_l.
  - rewrite Nat.min_r by lia. by rewrite !take_ge by lia.
Qed.

Lemma substring_from_drop s (k : nat) : substring_from s (Z.of_nat k) = drop k s.
Proof.
  unfold substring_from, substring. rewrite !clamp_nat, Nat.min_id.
  destruct (decide (k ≤ length s)%nat).
  - rewrite (Nat.min_l k) by lia. rewrite Nat.min_l, Nat.max_r by lia.
    apply take_ge. rewrite length_drop. lia.
  - rewrite (Nat.min_r k) by lia. rewrite Nat.min_id, Nat.max_id, Nat.sub_diag.
    by rewrite !drop_ge by lia.
Qed.

Lemma substring_from_negative s : substring_from s (-1) = s.
Proof.
  unfold substring_from, substring.
  assert (clamp s (-1) = 0%nat) as -> by (unfold clamp; lia).
  rewrite clamp_nat, Nat.min_id. simpl. rewrite Nat.sub_0_r, drop_0. by apply take_ge.
Qed.

Lemma indexOf_found s sep (pos j : nat) :
  sep ≠ [] ->
  (pos ≤ j)%nat ->
  occurs_at sep s j ->
  (∀ q, (pos ≤ q < j)%nat -> ¬ occurs_at sep s q) ->
  indexOf s sep (Z.of_nat pos) = Z.of_nat j.
Proof.
  intros Hsep Hle Hj Hbefore. unfold indexOf. rewrite clamp_nat.
  pose proof (occurs_at_length _ _ _ Hsep Hj). rewrite Nat.min_l by lia.
  rewrite (find_from_first sep _ pos (j - pos)).
  - f_equal. lia.
  - unfold occurs_at. rewrite drop_drop. by replace (pos + (j - pos))%nat with j by lia.
  - intros q Hq. unfold occurs_at. rewrite drop_drop. apply Hbefore. lia.
Qed.

Lemma indexOf_first s sep (j : nat) :
  sep ≠ [] ->
  occurs_at sep s j ->
  (∀ q, (q < j)%nat -> ¬ occurs_at sep s q) ->
  indexOf s sep 0 = Z.of_nat j.
Proof.
  intros Hsep Hj Hbefore. apply (indexOf_found s sep 0 j); [done | lia | done |].
  intros q Hq. apply Hbefore. lia.
Qed.

Lemma indexOf_absent s sep (pos : Z) :
  (∀ q, (Z.to_nat pos ≤ q)%nat -> ¬ occurs_at sep s q) -> indexOf s sep pos = -1.
Proof.
  intros Hno. unfold indexOf. rewrite find_from_none; [done|].
  intros q. unfold occurs_at. rewrite drop_drop.
  destruct (decide (length s ≤ clamp s pos + q)%nat) as [Hlt|Hge].
  - rewrite drop_ge by lia. intros H. apply (Hno (length s + Z.to_nat pos)%nat); [lia|].
    unfold occurs_at. by rewrite drop_ge by lia.
  - apply Hno. unfold clamp in *. lia.
Qed.

End Strings.

(** ** Digest extraction *)

Section Extraction.

Implicit Types s sep : jsstring.

Lemma occurs_at_decompose sep s k :
  sep ≠ [] -> occurs_at sep s k ->
  s = take k s ++ sep ++ drop (k + length sep) s ∧ length (take k s) = k.
Proof.
  intros Hsep H. pose proof (occurs_at_length _ _ _ Hsep H). split.
  - rewrite <- (occurs_at_split _ _ _ H). by rewrite take_drop.
  - rewrite length_take. lia.
Qed.

Lemma marker_nonempty : str "##" ≠ [].
Proof. by vm_compute. Qed.

Lemma join_cons p q rest sep :
  join (p :: q :: rest) sep = p ++ sep ++ join (q :: rest) sep.
Proof. done. Qed.

Lemma marker_offsets_cons a b rest off :
  marker_offsets (a :: b :: rest) off =
  if (a =? 35) && (b =? 35) then off :: marker_offsets rest (off + 2)
  else marker_offsets (b :: rest) (off + 1).
Proof. done. Qed.

Lemma find_from_cons sep c s k :
  find_from sep (c :: s) k =
  if prefix_b sep (c :: s) then Some k else find_from sep s (S k).
Proof. done. Qed.

Lemma marker_offsets_find s off :
  marker_offsets s off =
  match find_from (str "##") s off with
  | None => []
  | Some j => j :: marker_offsets (drop (j - off + 2) s) (j + 2)
  end.
Proof.
  change (str "##") with [35; 35].
  revert off. induction s as [|a tl IH]; intros off; [done|].
  destruct tl as [|b rest].
  - simpl. by rewrite andb_false_r.
  - rewrite marker_offsets_cons, find_from_cons. cbn [prefix_b]. rewrite andb_true_r.
    rewrite (Z.eqb_sym 35 a), (Z.eqb_sym 35 b).
    destruct ((a =? 35) && (b =? 35)) eqn:E.
    + by rewrite Nat.sub_diag.
    + rewrite IH, Nat.add_1_r.
      destruct (find_from [35; 35] (b :: rest) (S off)) as [j|] eqn:F; [|done].
      apply find_from_ge in F. by replace (j - off + 2)%nat with (S (j - S off + 2)) by lia.
Qed.

Lemma marker_offsets_ge n : ∀ s off p,
  (length s ≤ n)%nat -> p ∈ marker_offsets s off -> (off ≤ p)%nat.
Proof.
  induction n as [|n IH]; intros s off p Hn.
  - destruct s; [|simpl in Hn; lia]. by intros ?%elem_of_nil.
  - destruct s as [|a [|b rest]]; [by intros ?%elem_of_nil..|].
    simpl in Hn. rewrite marker_offsets_cons.
    destruct ((a =? 35) && (b =? 35)).
    + intros [->|H]%elem_of_cons; [lia|]. apply IH in H; lia.
    + intros H. apply IH in H; simpl; lia.
Qed.

(** Every offset listed is a place where the marker occurs. *)
Lemma marker_offsets_occur n : ∀ s off p,
  (length s ≤ n)%nat -> p ∈ marker_offsets s off ->
  occurs_at (str "##") s (p - off).
Proof.
  change (str "##") with [35; 35].
  induction n as [|n IH]; intros s off p Hn.
  - destruct s; [|simpl in Hn; lia]. by intros ?%elem_of_nil.
  - destruct s as [|a [|b rest]]; [by intros ?%elem_of_nil..|].
    simpl in Hn. rewrite marker_offsets_cons.
    destruct ((a =? 35) && (b =? 35)) eqn:E.
    + apply andb_true_iff in E as [->%Z.eqb_eq ->%Z.eqb_eq].
      intros [->|H]%elem_of_cons.
      * by rewrite Nat.sub_diag.
      * pose proof (marker_offsets_ge _ _ _ _ (Nat.le_refl _) H).
        apply IH in H; [|lia].
        replace (p - off)%nat with (S (S (p - (off + 2)))) by lia. exact H.
    + intros H. pose proof (marker_offsets_ge _ _ _ _ (Nat.le_refl _) H).
      apply IH in H; [|simpl; lia].
      replace (p - off)%nat with (S (p - (off + 1))) by lia. exact H.
Qed.

Lemma split_loop_S s sep i lim :
  split_loop s sep i (S lim) =
  match find_from sep (drop i s) i with
  | None => [drop i s]
  | Some j => take (j - i) (drop i s) :: split_loop s sep (j + length sep) lim
  end.
Proof. done. Qed.

Lemma join_split_cons p s sep i lim :
  join (p :: split_loop s sep i (S lim)) sep =
  p ++ sep ++ join (split_loop s sep i (S lim)) sep.
Proof. rewrite split_loop_S. by destruct (find_from _ _ _). Qed.

(** The pieces [split] keeps, joined again, stop before the marker
    number [lim + 1] or, with fewer markers, at the end of the text. *)
Lemma join_split_loop lim : ∀ i s,
  join (split_loop s (str "##") i (S lim)) (str "##") =
  match marker_offsets (drop i s) i !! lim with
  | Some p => take (p - i) (drop i s)
  | None => drop i s
  end.
Proof.
  induction lim as [|lim IH]; intros i s;
    rewrite split_loop_S, marker_offsets_find;
    destruct (find_from (str "##") (drop i s) i) as [j|] eqn:F; try done.
  pose proof (find_from_ge _ _ _ _ F) as Hij.
  apply find_from_occurs in F.
  destruct (occurs_at_decompose _ _ _ marker_nonempty F) as [HD Hlen].
  change (length (str "##")) with 2%nat in *.
  rewrite drop_drop in HD |- *.
  replace (i + (j - i + 2))%nat with (j + 2)%nat in * by lia.
  rewrite join_split_cons, IH. clear IH.
  change ((j :: ?l) !! S lim) with (l !! lim).
  set (A := take (j - i) (drop i s)) in *.
  destruct (marker_offsets (drop (j + 2) s) (j + 2) !! lim) as [p|] eqn:L;
    rewrite HD; [|done].
  apply list_elem_of_lookup_2, (marker_offsets_ge _ _ _ _ (Nat.le_refl _)) in L.
  rewrite take_app_ge by lia. rewrite Hlen. f_equal.
  rewrite take_app_ge by (simpl; lia). f_equal.
  f_equal. simpl. lia.
Qed.

End Extraction.

(** C3. Digest extraction returns the prefix of the text that ends just
    before the start offset of the third occurrence of the marker "##"
    (occurrences found left to right, the search resuming after each
    marker, as [split] finds them); a text with two or fewer markers is
    returned whole. *)
Theorem digest_extraction_cuts_before_third_marker (mdText : jsstring) :
  (∀ p, marker_offsets mdText 0 !! 2%nat = Some p ->
        occurs_at (str "##") mdText p ∧ cutText mdText = take p mdText) ∧
  ((length (marker_offsets mdText 0) ≤ 2)%nat -> cutText mdText = mdText).
Proof.
  assert (cutText mdText =
          match marker_offsets mdText 0 !! 2%nat with
          | Some p => take p mdText
          | None => mdText
          end) as Hcut.
  { unfold cutText, thirdHeaderPos.
    change (split mdText (str "##") 3) with (split_loop mdText (str "##") 0 3).
    rewrite join_split_loop, drop_0.
    destruct (marker_offsets mdText 0 !! 2%nat) as [p|].
    - rewrite Nat.sub_0_r, substring_take, length_take.
      destruct (decide (p ≤ length mdText)%nat); [by rewrite Nat.min_l|].
      rewrite Nat.min_r by lia. by rewrite !take_ge by lia.
    - by rewrite substring_take, firstn_all. }
  split.
  - intros p Hp. rewrite Hcut, Hp. split; [|done].
    apply list_elem_of_lookup_2 in Hp.
    apply (marker_offsets_occur _ _ _ _ (Nat.le_refl _)) in Hp.
    by rewrite Nat.sub_0_r in Hp.
  - intros Hlen. rewrite Hcut, lookup_ge_None_2; [done | lia].
Qed.

(** A run of four [#] holds two markers, not three. *)
Example adjacent_markers :
  marker_offsets (str "####a##b") 0 = [0; 2; 5]%nat ∧
  cutText (str "####a##b") = str "####a".
Proof. by split. Qed.

Lemma digest_extraction_witness :
  cutText agenda_md = str "# Call## A## B" ∧ cutText (str "# A## B") = str "# A## B".
Proof.
  split.
  - destruct (digest_extraction_cuts_before_third_marker agenda_md) as [H _].
    destruct (H 14%nat eq_refl) as [_ ->]. reflexivity.
  - apply (proj2 (digest_extraction_cuts_before_third_marker (str "# A## B"))).
    vm_compute. lia.
Defined.

(** ** Template splicing *)

Section Splice.

Implicit Types email html : jsstring.

Lemma hr_nonempty : hr ≠ [].
Proof. by vm_compute. Qed.

(** Two occurrences of the delimiter cannot overlap. *)
Lemma hr_no_overlap email p1 p2 :
  occurs_at hr email p1 -> occurs_at hr email p2 -> (p1 < p2)%nat -> (p1 + 4 ≤ p2)%nat.
Proof.
  intros H1 H2 Hlt.
  pose proof (occurs_at_lookup hr email p2 0 60 H2 eq_refl) as L. rewrite Nat.add_0_r in L.
  destruct (decide (p2 = p1 + 1)%nat) as [->|];
    [by rewrite (occurs_at_lookup hr email p1 1 104 H1 eq_refl) in L|].
  destruct (decide (p2 = p1 + 2)%nat) as [->|];
    [by rewrite (occurs_at_lookup hr email p1 2 114 H1 eq_refl) in L|].
  destruct (decide (p2 = p1 + 3)%nat) as [->|];
    [by rewrite (occurs_at_lookup hr email p1 3 62 H1 eq_refl) in L|].
  lia.
Qed.

Lemma take_through_hr email p : occurs_at hr email p -> take (p + 4) email = take p email ++ hr.
Proof.
  intros H. destruct (occurs_at_decompose _ _ _ hr_nonempty H) as [HD Hlen].
  rewrite HD at 1. rewrite app_assoc, take_app_length'; [done|].
  rewrite length_app, Hlen. done.
Qed.

(** The splice of a template without any delimiter. *)
Lemma splice_no_delimiter email html :
  (∀ q, ¬ occurs_at hr email q) -> splice email html = take 3 email ++ html ++ email.
Proof.
  intros Hno. unfold splice. fold hr.
  rewrite (indexOf_absent email hr 0) by (intros; apply Hno).
  change (-1 + 4) with (Z.of_nat 3).
  rewrite (indexOf_absent email hr (Z.of_nat 3)) by (intros; apply Hno).
  by rewrite substring_take, substring_from_negative.
Qed.

(** The splice of a template with a single delimiter. *)
Lemma splice_one_delimiter email html k :
  occurs_at hr email k -> (∀ q, q ≠ k -> ¬ occurs_at hr email q) ->
  splice email html = take (k + 4) email ++ html ++ email.
Proof.
  intros Hk Hno. unfold splice. fold hr.
  rewrite (indexOf_first email hr k hr_nonempty Hk) by (intros q ?; apply Hno; lia).
  replace (Z.of_nat k + 4) with (Z.of_nat (k + 4)) by lia.
  rewrite (indexOf_absent email hr (Z.of_nat (k + 4))) by (intros; apply Hno; lia).
  by rewrite substring_take, substring_from_negative.
Qed.

End Splice.

(** C4. For a template with at least two delimiters [<hr>], the first
    at [p1] and the second at [p2], the splice is the template up to and
    including the first delimiter, the fragment, and the template from
    the second delimiter on: only what lay strictly between the two is
    replaced. *)
Theorem template_splice_between_delimiters (email html : jsstring) (p1 p2 : nat) :
  occurs_at hr email p1 ->
  (∀ q, (q < p1)%nat -> ¬ occurs_at hr email q) ->
  (p1 < p2)%nat ->
  occurs_at hr email p2 ->
  (∀ q, (p1 < q < p2)%nat -> ¬ occurs_at hr email q) ->
  splice email html = take (p1 + 4) email ++ html ++ drop p2 email ∧
  take (p1 + 4) email = take p1 email ++ hr ∧
  drop p2 email = hr ++ drop (p2 + 4) email ∧
  email = take (p1 + 4) email
            ++ take (p2 - (p1 + 4)) (drop (p1 + 4) email) ++ drop p2 email.
Proof.
  intros H1 Hfirst Hlt H2 Hsecond.
  pose proof (hr_no_overlap _ _ _ H1 H2 Hlt) as Hgap.
  repeat split.
  - unfold splice. fold hr.
    rewrite (indexOf_first email hr p1 hr_nonempty H1 Hfirst).
    replace (Z.of_nat p1 + 4) with (Z.of_nat (p1 + 4)) by lia.
    rewrite (indexOf_found email hr (p1 + 4) p2 hr_nonempty Hgap H2)
      by (intros q ?; apply Hsecond; lia).
    by rewrite substring_take, substring_from_drop.
  - by apply take_through_hr.
  - apply (occurs_at_split hr email p2 H2).
  - rewrite <- (take_drop (p1 + 4) email) at 1. f_equal.
    rewrite <- (take_drop (p2 - (p1 + 4)) (drop (p1 + 4) email)) at 1.
    f_equal. rewrite drop_drop. f_equal. lia.
Qed.

Lemma template_splice_witness :
  splice good_template (str "NEW") = str "<p>Hi</p><hr>NEW<hr><p>Bye</p>".
Proof.
  destruct (template_splice_between_delimiters good_template (str "NEW") 9 16) as [-> _].
  - reflexivity.
  - intros q Hq. do 9 (destruct q as [|q]; [by vm_compute|]). lia.
  - lia.
  - reflexivity.
  - intros q Hq. do 10 (destruct q as [|q]; [lia|]).
    do 6 (destruct q as [|q]; [by vm_compute|]). lia.
  - reflexivity.
Defined.

(** ** The channel listeners *)

#[local] Arguments AGENT_ID : simpl never.
#[local] Arguments nl : simpl never.
#[local] Arguments str : simpl never.

Ltac run := unfold mbind, M_bind, bind, emit, ret, throw, exit, await; cbn.

Lemma guard_spec (s : jsstring) : substring s 0 7 = AGENT_ID ↔ starts_with AGENT_ID s.
Proof.
  change 7 with (Z.of_nat 7). rewrite substring_take. split.
  - intros H. exists (drop 7 s). by rewrite <- H, take_drop.
  - intros [rest ->]. by rewrite take_app_length'.
Qed.

Lemma digest_email_found w wksp mdText email p :
  fileContents wksp = Some mdText ->
  readFileSync w TEMPLATE = inr email ->
  digest_email w wksp p = (Return (splice email (markdown w (cutText mdText))), p, [Sleep 20000]).
Proof. intros Hdoc Hfile. unfold digest_email. rewrite Hdoc, Hfile. by run. Qed.

Lemma digest_email_missing w wksp p :
  fileContents wksp = None -> digest_email w wksp p = (Throw NO_DOCUMENT, p, [Sleep 20000]).
Proof. intros Hdoc. unfold digest_email. rewrite Hdoc. by run. Qed.

Lemma fileContents_none wksp :
  (∀ pn, pn ∈ getProjects wksp -> str "/agenda.md" ∉ getFileList (proj_get wksp pn)) ->
  fileContents wksp = None.
Proof.
  unfold fileContents. generalize (@None (list Z)) as found.
  induction (getProjects wksp) as [|pn pns IH]; intros found Hno; [done|].
  cbn [foldl]. rewrite IH by (intros; apply Hno; by right).
  f_equal. specialize (Hno pn ltac:(by left)).
  revert found. induction (getFileList (proj_get wksp pn)) as [|path paths IHp]; intros found; [done|].
  cbn [foldl]. apply not_elem_of_cons in Hno as [Hne Hno].
  rewrite decide_False by done. by apply IHp.
Qed.

(** C2, as the code has it.  On the subscribed channel the AI-reply
    listener and the answering digest listener ignore a message whose
    text starts with "AGENT: " (console output only) and forward every
    other message once: one generation call and one publication, or one
    digest mail and one publication.  The stand-alone digest listener
    has no guard: its run does not depend on the message at all. *)
Theorem self_reply_guard (w : World) (wksp : Workspace) (channelName : jsstring)
    (m : ChatMessage) (p : process) :
  (starts_with AGENT_ID (message m) ->
     Reply.onChat w channelName channelName m p = (Return tt, p, [Console (LogMessage m)]) ∧
     DigestReply.onChat w wksp channelName channelName m p
       = (Return tt, p, [Console (LogMessage m)])) ∧
  (¬ starts_with AGENT_ID (message m) ->
     Reply.onChat w channelName channelName m p =
       match ai_generate w (message m) with
       | inr text =>
           (Return tt, p,
            [Console (LogMessage m); Generate (message m);
             SendMessage channelName
               {| uuid := []; user := get_identity_name w; ts := now w;
                  message := AGENT_ID ++ text |}])
       | inl e => (Throw e, p, [Console (LogMessage m); Generate (message m)])
       end ∧
     ∀ mdText email,
       fileContents wksp = Some mdText ->
       readFileSync w TEMPLATE = inr email ->
       let body := splice email (markdown w (cutText mdText)) in
       DigestReply.onChat w wksp channelName channelName m p =
         (Return tt, p,
          [Console (LogMessage m); Sleep 20000;
           SendMail (DigestReply.mailOptions body);
           SendMessage channelName
             {| uuid := []; user := get_identity_name w; ts := now w;
                message := (DigestReply.report_head wksp
                              ++ str "Sending the following email: " ++ nl) ++ body |};
           Console (match sendMail w (DigestReply.mailOptions body) with
                    | Some error => LogMailError error
                    | None => LogMailSent
                    end)])) ∧
  (∀ m', Digest.onChat w wksp channelName channelName m p
         = Digest.onChat w wksp channelName channelName m' p).
Proof.
  unfold Reply.onChat, DigestReply.onChat.
  split; [|split].
  - intros Hself%guard_spec. split; repeat case_decide; done.
  - intros Hother. rewrite <- guard_spec in Hother. split.
    + repeat case_decide; try done. run. by destruct (ai_generate w (message m)).
    + intros mdText email Hdoc Hfile. repeat case_decide; try done. run.
      by rewrite (digest_email_found _ _ _ _ _ Hdoc Hfile).
  - done.
Qed.

Lemma self_reply_guard_witness :
  Reply.onChat (demo [] [] []) (str "general") (str "general") (say "AGENT: hello") (fresh ∅)
  = (Return tt, fresh ∅, [Console (LogMessage (say "AGENT: hello"))]) ∧
  Reply.onChat (demo [] [] []) (str "general") (str "general") (say "ping") (fresh ∅)
  = (Return tt, fresh ∅,
     [Console (LogMessage (say "ping")); Generate (str "ping");
      SendMessage (str "general")
        {| uuid := []; user := str "bot"; ts := 0; message := str "AGENT: pong" |}]).
Proof.
  pose (thm := self_reply_guard (demo [] [] []) (demo_wksp [] [] []) (str "general")).
  split.
  - apply (proj1 (thm (say "AGENT: hello") (fresh ∅))). by exists (str "hello").
  - apply (proj1 (proj2 (thm (say "ping") (fresh ∅)))).
    intros [rest H]. by vm_compute in H.
Defined.

(** C2 fails as stated: in the stand-alone digest agent a message that
    starts with the sentinel prefix runs the digest and sends the mail. *)
Lemma digest_has_no_guard :
  starts_with AGENT_ID (message (say "AGENT: hello")) ∧
  Digest.onChat (demo [str "notes"] agenda_md good_template)
    (demo_wksp [str "notes"] agenda_md []) (str "general") (str "general")
    (say "AGENT: hello") (fresh ∅)
  = (Exit 0, fresh ∅,
     [Sleep 20000;
      SendMail (Digest.mailOptions (str "<p>Hi</p><hr># Call## A## B<hr><p>Bye</p>"));
      Console LogMailSent]).
Proof. split; [by exists (str "hello") | reflexivity]. Qed.

(** C7. When no project holds a file at "/agenda.md" the digest run
    sends no mail, but it does not complete either: reading the text of
    the document that was never found throws a [TypeError] out of the
    listener, in both digest agents. *)
Theorem digest_without_agenda_throws (w : World) (wksp : Workspace) (channelName : jsstring)
    (m : ChatMessage) (p : process) :
  (∀ pn, pn ∈ getProjects wksp -> str "/agenda.md" ∉ getFileList (proj_get wksp pn)) ->
  Digest.onChat w wksp channelName channelName m p = (Throw NO_DOCUMENT, p, [Sleep 20000]) ∧
  (¬ starts_with AGENT_ID (message m) ->
   DigestReply.onChat w wksp channelName channelName m p
   = (Throw NO_DOCUMENT, p, [Console (LogMessage m); Sleep 20000])).
Proof.
  intros Hdoc%fileContents_none. unfold Digest.onChat, DigestReply.onChat. split.
  - case_decide; [|done]. run. by rewrite (digest_email_missing _ _ _ Hdoc).
  - intros Hother. rewrite <- guard_spec in Hother. repeat case_decide; try done.
    run. by rewrite (digest_email_missing _ _ _ Hdoc).
Qed.

Lemma digest_without_agenda_witness :
  Digest.onChat (demo [] agenda_md good_template) (demo_wksp [] agenda_md [])
    (str "general") (str "general") (say "input") (fresh ∅)
  = (Throw NO_DOCUMENT, fresh ∅, [Sleep 20000]).
Proof.
  apply (digest_without_agenda_throws (demo [] agenda_md good_template)
           (demo_wksp [] agenda_md []) (str "general") (say "input") (fresh ∅)).
  intros pn H. by apply elem_of_nil in H.
Defined.

(** C8 on the code.  The result of [indexOf] is never checked, in
    either digest agent.  When the template lacks one or both
    delimiters the [-1] is used as an offset: instead of failing, the
    run makes a body out of the template up to the delimiter it found
    (or its first three code units), the fragment and the whole
    template again, and hands it to the mail transport; the replying
    agent publishes it on the channel as well. *)
Theorem malformed_template_is_mailed (w : World) (wksp : Workspace) (channelName : jsstring)
    (m : ChatMessage) (p : process) (mdText email body : jsstring) :
  fileContents wksp = Some mdText ->
  readFileSync w TEMPLATE = inr email ->
  malformed email (markdown w (cutText mdText)) body ->
  Digest.onChat w wksp channelName channelName m p =
    match sendMail w (Digest.mailOptions body) with
    | Some error =>
        (Return tt, p,
         [Sleep 20000; SendMail (Digest.mailOptions body); Console (LogMailError error)])
    | None =>
        (Exit 0, p, [Sleep 20000; SendMail (Digest.mailOptions body); Console LogMailSent])
    end ∧
  (¬ starts_with AGENT_ID (message m) ->
   DigestReply.onChat w wksp channelName channelName m p =
     (Return tt, p,
      [Console (LogMessage m); Sleep 20000;
       SendMail (DigestReply.mailOptions body);
       SendMessage channelName
         {| uuid := []; user := get_identity_name w; ts := now w;
            message := (DigestReply.report_head wksp
                          ++ str "Sending the following email: " ++ nl) ++ body |};
       Console (match sendMail w (DigestReply.mailOptions body) with
                | Some error => LogMailError error
                | None => LogMailSent
                end)])).
Proof.
  intros Hdoc Hfile Hbad.
  assert (splice email (markdown w (cutText mdText)) = body) as Hbody.
  { destruct Hbad as [Hno|k Hk Hno].
    - by apply splice_no_delimiter.
    - by apply splice_one_delimiter. }
  split.
  - unfold Digest.onChat. case_decide; [|done]. run.
    rewrite (digest_email_found _ _ _ _ _ Hdoc Hfile), Hbody.
    by destruct (sendMail w (Digest.mailOptions body)).
  - intros Hother. rewrite <- guard_spec in Hother.
    unfold DigestReply.onChat. repeat case_decide; try done. run.
    by rewrite (digest_email_found _ _ _ _ _ Hdoc Hfile), Hbody.
Qed.

Lemma bad_template_one_delimiter :
  occurs_at hr bad_template 9 ∧ ∀ q, q ≠ 9%nat -> ¬ occurs_at hr bad_template q.
Proof.
  split; [reflexivity|]. intros q Hq H.
  pose proof (occurs_at_length _ _ _ hr_nonempty H) as Hlen.
  change (length hr) with 4%nat in Hlen. change (length bad_template) with 16%nat in Hlen.
  do 9 (destruct q as [|q]; [by vm_compute in H|]).
  destruct q as [|q]; [done|].
  do 3 (destruct q as [|q]; [by vm_compute in H|]).
  lia.
Qed.

Lemma malformed_template_witness :
  let garbled := take (9 + 4) bad_template ++ str "# Call## A## B" ++ bad_template in
  Digest.onChat (demo [str "notes"] agenda_md bad_template)
    (demo_wksp [str "notes"] agenda_md []) (str "general") (str "general")
    (say "input") (fresh ∅)
  = (Exit 0, fresh ∅,
     [Sleep 20000; SendMail (Digest.mailOptions garbled); Console LogMailSent]) ∧
  (DigestReply.onChat (demo [str "notes"] agenda_md bad_template)
     (demo_wksp [str "notes"] agenda_md []) (str "general") (str "general")
     (say "input") (fresh ∅)).2 !! 2%nat
  = Some (SendMail (DigestReply.mailOptions garbled)).
Proof.
  cbv zeta.
  destruct (malformed_template_is_mailed (demo [str "notes"] agenda_md bad_template)
              (demo_wksp [str "notes"] agenda_md []) (str "general") (say "input") (fresh ∅)
              agenda_md bad_template
              (take (9 + 4) bad_template ++ str "# Call## A## B" ++ bad_template))
    as [Hdigest Hreply].
  - reflexivity.
  - reflexivity.
  - apply (one_delimiter bad_template (str "# Call## A## B") 9);
      apply bad_template_one_delimiter.
  - split; [exact Hdigest|]. rewrite Hreply; [reflexivity|].
    intros [rest H]. by vm_compute in H.
Defined.

(** The same run, written out: a template with a single delimiter does
    not stop the digest; the mail goes out with a body made of the
    template up to its delimiter, the fragment and the whole template. *)
Example malformed_template_sent_anyway :
  (∀ q, q ≠ 9%nat -> ¬ occurs_at hr bad_template q) ∧
  Digest.onChat (demo [str "notes"] agenda_md bad_template)
    (demo_wksp [str "notes"] agenda_md []) (str "general") (str "general")
    (say "input") (fresh ∅)
  = (Exit 0, fresh ∅,
     [Sleep 20000;
      SendMail (Digest.mailOptions (str "<p>Hi</p><hr># Call## A## B<p>Hi</p><hr>old"));
      Console LogMailSent]).
Proof. split; [apply bad_template_one_delimiter | reflexivity]. Qed.

(** ** What no step of the program does *)

Section Steady.

Lemma step_ok_refl p : step_ok p p [].
Proof. unfold step_ok. naive_solver. Qed.

Lemma step_ok_trans p p1 p2 t1 t2 :
  step_ok p p1 t1 -> step_ok p1 p2 t2 -> step_ok p p2 (t1 ++ t2).
Proof.
  intros (Hs1 & Ht1 & Hl1) (Hs2 & Ht2 & Hl2). split_and!.
  - destruct Hs1 as [E1|[? E1]], Hs2 as [E2|[H2 E2]]; rewrite ?E1, ?E2 in *; naive_solver.
  - intros Hp. apply Forall_app. split; [auto|]. apply Ht2.
    destruct Hs1 as [->|[? _]]; done.
  - by etrans.
Qed.

Lemma step_ok_events p p' t t' :
  step_ok p p' t -> Forall (fun e => ¬ is_stopping e) t' -> step_ok p p' (t ++ t').
Proof.
  intros H Ht'. apply (step_ok_trans p p' p' t t' H).
  unfold step_ok. naive_solver.
Qed.

Lemma steady_ret {A} (a : A) : steady (ret a).
Proof. intros p. apply step_ok_refl. Qed.

Lemma steady_bind {A B} (m : M A) (f : A -> M B) :
  steady m -> (∀ a, steady (f a)) -> steady (m ≫= f).
Proof.
  intros Hm Hf p. unfold mbind, M_bind, bind. specialize (Hm p).
  destruct (m p) as [[o p1] t1]. destruct o as [a| | |]; try exact Hm.
  specialize (Hf a p1). destruct (f a p1) as [[o2 p2] t2].
  by apply (step_ok_trans p p1 p2).
Qed.

Lemma steady_emit_all (es : list event) :
  Forall (fun e => ¬ is_stopping e) es -> steady (emit_all es).
Proof. intros H p. apply (step_ok_events p p [] es); [apply step_ok_refl | done]. Qed.

Lemma steady_emit (e : event) : ¬ is_stopping e -> steady (emit e).
Proof. intros H. apply (steady_emit_all [e]). by constructor. Qed.

Lemma steady_throw {A} (e : error) : steady (@throw A e).
Proof. intros p. apply step_ok_refl. Qed.

Lemma steady_exit {A} (c : Z) : steady (@exit A c).
Proof. intros p. apply step_ok_refl. Qed.

Lemma steady_forever {A} : steady (@forever A).
Proof. intros p. apply step_ok_refl. Qed.

Lemma steady_read {A} (f : process -> A) : steady (read f).
Proof. intros p. apply step_ok_refl. Qed.

Lemma steady_set_stats m : steady (set_stats m).
Proof. intros p. simpl. unfold step_ok. naive_solver. Qed.

Lemma steady_on_chat l : steady (on_chat l).
Proof.
  intros p. simpl. split_and!; [by left | by constructor | by apply prefix_app_r].
Qed.

Lemma steady_on_data l : steady (on_data l).
Proof. intros p. simpl. unfold step_ok. naive_solver. Qed.

Lemma steady_await {A} (r : error + A) : steady (await r).
Proof. destruct r; [apply steady_throw | apply steady_ret]. Qed.

Lemma steady_try_catch {A} (m : M A) (h : error -> M A) :
  steady m -> (∀ e, steady (h e)) -> steady (try_catch m h).
Proof.
  intros Hm Hh p. unfold try_catch. specialize (Hm p).
  destruct (m p) as [[o p1] t1]. destruct o as [a|e| |]; try exact Hm.
  specialize (Hh e p1). destruct (h e p1) as [[o2 p2] t2].
  by apply (step_ok_trans p p1 p2).
Qed.

Lemma steady_no_await {A} (task : M unit) (k : M A) :
  steady k -> steady task -> steady (no_await task k).
Proof.
  intros Hk Ht p. unfold no_await. specialize (Hk p).
  destruct (k p) as [[o p1] t1]. specialize (Ht p1).
  destruct o as [a|e| |]; try exact Hk;
    destruct (task p1) as [[o2 p2] t2]; destruct o2;
    try (by apply (step_ok_trans p p1 p2)).
  all: apply (step_ok_trans p p1 p2); [done|].
  all: apply step_ok_events; [done|].
  all: constructor; [by intros []|constructor].
Qed.

Lemma steady_callback (h : M unit) : steady h -> steady (callback h).
Proof.
  intros Hh p. unfold callback. specialize (Hh p).
  destruct (h p) as [[o p1] t1]. destruct o; try done.
  apply step_ok_events; [done|]. constructor; [by intros []|constructor].
Qed.

(** The one step that writes the slot: it needs a handle to be there,
    and leaves [null]. *)
Lemma steady_stop_previous : steady stop_previous.
Proof.
  intros p. unfold stop_previous. run. unfold read.
  destruct (_activeAgent p) eqn:E; cbn; unfold step_ok; cbn; rewrite E; naive_solver.
Qed.

End Steady.

Ltac steady_step :=
  lazymatch goal with
  | |- steady (_ ≫= _) => apply steady_bind; [|intros ?]
  | |- steady (ret _) => apply steady_ret
  | |- steady (emit_all _) => apply steady_emit_all
  | |- steady (emit _) => apply steady_emit; by intros []
  | |- steady (throw _) => apply steady_throw
  | |- steady (exit _) => apply steady_exit
  | |- steady forever => apply steady_forever
  | |- steady (read _) => apply steady_read
  | |- steady (set_stats _) => apply steady_set_stats
  | |- steady (on_chat _) => apply steady_on_chat
  | |- steady (on_data _) => apply steady_on_data
  | |- steady (await _) => apply steady_await
  | |- steady stop_previous => apply steady_stop_previous
  | |- steady (try_catch _ _) => apply steady_try_catch; [|intros ?]
  | |- steady (no_await _ _) => apply steady_no_await
  | |- steady (callback _) => apply steady_callback
  | |- steady (match ?x with _ => _ end) => destruct x
  end.

Section SteadyProgram.

Variable w : World.

Lemma steady_join_call n l a b key : steady (join_call w n l a b key).
Proof. unfold join_call. repeat steady_step. Qed.

Lemma steady_setup_call e : steady (setup_call w e).
Proof. unfold setup_call. repeat steady_step. Qed.

Lemma steady_list_channels {A} cs : steady (@list_channels A cs).
Proof. unfold list_channels. repeat steady_step. Qed.

Lemma steady_enter_channel wksp c : steady (enter_channel wksp c).
Proof.
  unfold enter_channel. repeat steady_step.
  apply Forall_fmap, Forall_true. by intros ? [].
Qed.

Lemma steady_plain_setupWorkspace n key : steady (Cli.setupWorkspace w n key).
Proof.
  unfold Cli.setupWorkspace. repeat steady_step;
    auto using steady_join_call, steady_setup_call.
Qed.

Lemma steady_relaxed_setupWorkspace n key : steady (DigestReply.setupWorkspace w n key).
Proof.
  unfold DigestReply.setupWorkspace. repeat steady_step;
    auto using steady_join_call, steady_setup_call.
Qed.

Lemma steady_Reply_startAgent n key c : steady (Reply.startAgent w n key c).
Proof.
  unfold Reply.startAgent. repeat steady_step;
    auto using steady_plain_setupWorkspace, steady_list_channels, steady_enter_channel.
Qed.

Lemma steady_DigestReply_startAgent n key c : steady (DigestReply.startAgent w n key c).
Proof.
  unfold DigestReply.startAgent. repeat steady_step;
    auto using steady_relaxed_setupWorkspace, steady_list_channels, steady_enter_channel.
Qed.

Lemma steady_Digest_startAgent n key c : steady (Digest.startAgent w n key c).
Proof.
  unfold Digest.startAgent. repeat steady_step;
    auto using steady_relaxed_setupWorkspace, steady_list_channels.
Qed.

Lemma steady_Reply_post_agent req : steady (Reply.post_agent w req).
Proof.
  unfold Reply.post_agent. cbv zeta. repeat steady_step;
    auto using steady_Reply_startAgent.
Qed.

Lemma steady_DigestReply_post_agent req : steady (DigestReply.post_agent w req).
Proof.
  unfold DigestReply.post_agent. cbv zeta. repeat steady_step;
    auto using steady_DigestReply_startAgent.
Qed.

Lemma steady_Digest_post_agent req : steady (Digest.post_agent w req).
Proof.
  unfold Digest.post_agent. cbv zeta. repeat steady_step;
    auto using steady_Digest_startAgent.
Qed.

Lemma steady_digest_email wksp : steady (digest_email w wksp).
Proof. unfold digest_email. cbv zeta. repeat steady_step. Qed.

Lemma steady_Reply_onChat c mc m : steady (Reply.onChat w c mc m).
Proof. unfold Reply.onChat. repeat steady_step. Qed.

Lemma steady_DigestReply_onChat wksp c mc m : steady (DigestReply.onChat w wksp c mc m).
Proof.
  unfold DigestReply.onChat. cbv zeta.
  repeat steady_step; auto using steady_digest_email.
  apply steady_emit. destruct (sendMail w _); by intros [].
Qed.

Lemma steady_DigestReply_onData c data : steady (DigestReply.onData w c data).
Proof. unfold DigestReply.onData. cbv zeta. repeat steady_step. Qed.

Lemma steady_Digest_onChat wksp c mc m : steady (Digest.onChat w wksp c mc m).
Proof. unfold Digest.onChat. repeat steady_step; auto using steady_digest_email. Qed.

Lemma steady_event_loop post listener typed inputs :
  (∀ req, steady (post req)) ->
  (∀ l c m, steady (listener l c m)) ->
  (∀ l data, steady (typed l data)) ->
  steady (event_loop post listener typed inputs).
Proof.
  intros Hpost Hlistener Htyped.
  induction inputs as [|[req|wk c m|data] rest IH]; cbn [event_loop]; repeat steady_step; auto.
  - unfold deliver. repeat steady_step.
    match goal with |- steady (foldr _ _ ?ls) => induction ls as [|l ls IHl] end;
      cbn [foldr]; repeat steady_step; auto.
  - unfold deliver_data. repeat steady_step.
    match goal with |- steady (foldr _ _ ?ls) => induction ls as [|l ls IHl] end;
      cbn [foldr]; repeat steady_step; auto.
Qed.

Lemma steady_Reply_run inputs : steady (Reply.run w inputs).
Proof.
  apply steady_event_loop;
    auto using steady_Reply_post_agent, steady_Reply_onChat, steady_ret.
Qed.

Lemma steady_DigestReply_run inputs : steady (DigestReply.run w inputs).
Proof.
  apply steady_event_loop;
    auto using steady_DigestReply_post_agent, steady_DigestReply_onChat,
      steady_DigestReply_onData.
Qed.

Lemma steady_Digest_run inputs : steady (Digest.run w inputs).
Proof.
  apply steady_event_loop;
    auto using steady_Digest_post_agent, steady_Digest_onChat, steady_ret.
Qed.

Lemma steady_slot {A} (m : M A) p :
  steady m -> slot_after (m p) = _activeAgent p ∨ slot_after (m p) = null.
Proof.
  intros H. specialize (H p). unfold slot_after. destruct (m p) as [[o p'] t].
  destruct H as ([?|[_ ?]] & _); auto.
Qed.

Lemma steady_fresh {A} (m : M A) stored :
  steady m ->
  slot_after (m (fresh stored)) = undefined ∧ Forall (fun e => ¬ is_stopping e) (m (fresh stored)).2.
Proof.
  intros H. specialize (H (fresh stored)). unfold slot_after.
  destruct (m (fresh stored)) as [[o p'] t]. destruct H as (Hs & Ht & _). split.
  - by destruct Hs as [?|[[] _]].
  - apply Ht. by intros [].
Qed.

End SteadyProgram.

(** C9. No operation puts a handle into [globalThis._activeAgent].  A
    [POST /agent] handler leaves the slot as it found it or resets it to
    [null]; so from the start of the process, whatever requests and chat
    events follow, the slot never holds a handle after an agent start
    (it is still unset) and the stop-previous branch never runs. *)
Theorem active_agent_slot_never_holds_a_handle (w : World) :
  (∀ req p,
     (slot_after (Reply.post_agent w req p) = _activeAgent p
      ∨ slot_after (Reply.post_agent w req p) = null) ∧
     (slot_after (DigestReply.post_agent w req p) = _activeAgent p
      ∨ slot_after (DigestReply.post_agent w req p) = null) ∧
     (slot_after (Digest.post_agent w req p) = _activeAgent p
      ∨ slot_after (Digest.post_agent w req p) = null)) ∧
  (∀ inputs stored,
     (slot_after (Reply.run w inputs (fresh stored)) = undefined ∧
      Forall (fun e => ¬ is_stopping e) (Reply.run w inputs (fresh stored)).2) ∧
     (slot_after (DigestReply.run w inputs (fresh stored)) = undefined ∧
      Forall (fun e => ¬ is_stopping e) (DigestReply.run w inputs (fresh stored)).2) ∧
     (slot_after (Digest.run w inputs (fresh stored)) = undefined ∧
      Forall (fun e => ¬ is_stopping e) (Digest.run w inputs (fresh stored)).2)).
Proof.
  split.
  - intros req p. split_and!; apply steady_slot;
      auto using steady_Reply_post_agent, steady_DigestReply_post_agent,
        steady_Digest_post_agent.
  - intros inputs stored. split_and!; apply steady_fresh;
      auto using steady_Reply_run, steady_DigestReply_run, steady_Digest_run.
Qed.

(** ** Workspace setup *)

(** C10, as the code has it.  In the digest agents the first setup of
    a workspace without a stored metadata record issues the join and
    then always throws: the [TypeError] of the write to [.ignore] when
    the join was accepted, the error of the join when it was rejected.
    Either way nothing is put back into the metadata store,
    [Workspace.setup] is not called, and no session is returned. *)
Theorem first_setup_throws (w : World) (wkspName : jsstring) (key : bytes) (p : process)
    (r : option error) (joined : gmap jsstring WkspMeta) :
  stats p !! wkspName = None ->
  Workspace_join w wkspName wkspName false true key (stats p) = (r, joined) ->
  DigestReply.setupWorkspace w wkspName key p
  = (Throw (match r with Some e => e | None => NO_METADATA end),
     {| _activeAgent := _activeAgent p; stats := joined; listeners := listeners p;
        data_listeners := data_listeners p |},
     [Join wkspName wkspName false true key]) ∧
  Digest.setupWorkspace w wkspName key p = DigestReply.setupWorkspace w wkspName key p.
Proof.
  intros Hnone Hjoin. split; [|done].
  unfold DigestReply.setupWorkspace, join_call, read, set_stats, write. run.
  rewrite Hnone. cbn. rewrite Hjoin. cbn. by destruct r.
Qed.

Lemma first_setup_witness :
  (DigestReply.setupWorkspace (demo [] [] []) (str "w1") (hex_decode zero_psk) (fresh ∅)).1.1
  = Throw NO_METADATA ∧
  (DigestReply.setupWorkspace (demo [] [] []) (str "w1") (hex_decode zero_psk) (fresh ∅)).2
  = [Join (str "w1") (str "w1") false true (hex_decode zero_psk)].
Proof.
  destruct (first_setup_throws (demo [] [] []) (str "w1") (hex_decode zero_psk) (fresh ∅)
              None (<[str "w1" := {| ignore := true; meta_rest := [] |}]> ∅))
    as [-> _]; [reflexivity | reflexivity | by split].
Defined.

(** C10 fails as stated: the first setup does not always throw a
    [TypeError].  When the sync service rejects the join, the error of
    the join is what [setupWorkspace] throws, and the write to
    [.ignore] is never reached. *)
Lemma first_setup_can_throw_the_join_error :
  stats (fresh ∅) !! str "w1" = None ∧
  DigestReply.setupWorkspace offline (str "w1") (hex_decode zero_psk) (fresh ∅)
  = (Throw (Rejected (str "no route")), fresh ∅,
     [Join (str "w1") (str "w1") false true (hex_decode zero_psk)]) ∧
  Digest.setupWorkspace offline (str "w1") (hex_decode zero_psk) (fresh ∅)
  = (Throw (Rejected (str "no route")), fresh ∅,
     [Join (str "w1") (str "w1") false true (hex_decode zero_psk)]) ∧
  Rejected (str "no route") ≠ NO_METADATA.
Proof. by split_and!. Qed.

(** ** The control endpoint *)

Lemma try_catch_responds {A} (m : M A) (h : error -> M A) p :
  (∀ e q, ∀ e', (h e q).1.1 ≠ Throw e') -> ∀ e', (try_catch m h p).1.1 ≠ Throw e'.
Proof.
  intros Hh e'. unfold try_catch. destruct (m p) as [[o p1] t1].
  destruct o as [a|e| |]; try done.
  specialize (Hh e p1 e'). by destruct (h e p1) as [[o2 p2] t2].
Qed.

Lemma local_prompts (w : World) (x : option jsstring) (question : jsstring) (p : process) :
  ∃ t, Cli.or_ask w x question p
       = (Return (match x with Some ((_ :: _) as s) => s | _ => askInput w question end), p, t)
       ∧ Forall is_local t.
Proof.
  unfold Cli.or_ask, ask. destruct x as [[|c s]|]; run; eexists; split; try done;
    repeat constructor.
Qed.

(** C5, as the code has it.  A key whose decoded length is not 32 bytes
    is refused by the callers of the workspace setup: each
    [POST /agent] handler throws before anything else happens, and the
    command-line client throws after its prompts and before any network
    action.  The all-zero key of 64 hex digits decodes to 32 bytes and
    passes: the handler then never rejects.  [setupWorkspace] itself
    checks nothing. *)
Theorem psk_checked_by_callers (w : World) :
  (∀ req p, length (hex_decode (psk req)) ≠ 32%nat ->
     Reply.post_agent w req p = (Throw PSK_ERROR, p, []) ∧
     DigestReply.post_agent w req p = (Throw PSK_ERROR, p, []) ∧
     Digest.post_agent w req p = (Throw PSK_ERROR, p, [])) ∧
  (∀ argv p, (3 ≤ length argv)%nat -> length (hex_decode (cli_pskHex w argv)) ≠ 32%nat ->
     ∃ t, Cli.main w argv p = (Throw PSK_ERROR, p, t) ∧ Forall is_local t) ∧
  (length (hex_decode zero_psk) = 32%nat ∧
   ∀ req p e, psk req = zero_psk ->
     (Reply.post_agent w req p).1.1 ≠ Throw e ∧
     (DigestReply.post_agent w req p).1.1 ≠ Throw e ∧
     (Digest.post_agent w req p).1.1 ≠ Throw e).
Proof.
  split_and!.
  - intros req p Hlen%Nat.eqb_neq.
    unfold Reply.post_agent, DigestReply.post_agent, Digest.post_agent.
    by rewrite Hlen.
  - intros argv p Hargs Hlen%Nat.eqb_neq. unfold Cli.main.
    destruct (length argv <? 3)%nat eqn:E; [apply Nat.ltb_lt in E; lia|].
    unfold cli_pskHex in Hlen. run.
    destruct (local_prompts w (Cli.arg_email (Cli.parse argv))
                (str "Enter email address: ") p) as (t1 & -> & Ht1).
    destruct (local_prompts w (Cli.arg_pskHex (Cli.parse argv))
                (str "Enter workspace PSK (32 bytes hex): ") p) as (t2 & -> & Ht2).
    rewrite Hlen. cbn. eexists. split; [done|].
    rewrite app_nil_r. by apply Forall_app.
  - reflexivity.
  - intros req p e Hzero.
    unfold Reply.post_agent, DigestReply.post_agent, Digest.post_agent.
    rewrite Hzero. cbv zeta. change (negb _) with false. cbv iota.
    split_and!; apply try_catch_responds; by intros.
Qed.

Lemma psk_checked_witness :
  Reply.post_agent (demo [] [] [])
    {| wkspName := str "w1"; psk := str "00"; channel := str "general" |} (fresh ∅)
  = (Throw PSK_ERROR, fresh ∅, []) ∧
  (∃ t, Cli.main (demo [] [] []) [str "node"; str "headless.ts"; str "w1"] (fresh ∅)
        = (Throw PSK_ERROR, fresh ∅, t) ∧ Forall is_local t) ∧
  (Reply.post_agent (demo [] [] []) (start "w1") (fresh ∅)).1.1 ≠ Throw PSK_ERROR.
Proof.
  pose proof (psk_checked_by_callers (demo [] [] [])) as (Hpost & Hcli & _ & Hzero).
  split_and!.
  - apply Hpost. vm_compute. lia.
  - apply Hcli; vm_compute; lia.
  - apply Hzero. reflexivity.
Defined.

(** C5 fails as stated: the workspace setup accepts a key of one byte
    and issues the join call with it. *)
Lemma setup_does_not_validate :
  hex_decode (str "00") = [0] ∧
  (Reply.setupWorkspace (demo [] [] []) (str "w1") [0] (fresh ∅)).1.1
  = Return (demo_wksp [] [] (str "w1")) ∧
  (Reply.setupWorkspace (demo [] [] []) (str "w1") [0] (fresh ∅)).2
  = [Join (str "w1") (str "w1") false false [0]; Setup (str "w1")].
Proof. by split_and!. Qed.

(** X1. No step ever removes a listener: the subscriptions of a
    process only grow, whatever the requests and chat events. *)
Lemma listeners_only_grow (w : World) (inputs : list input) (p : process) :
  listeners p `prefix_of` listeners_after (Reply.run w inputs p) ∧
  listeners p `prefix_of` listeners_after (DigestReply.run w inputs p) ∧
  listeners p `prefix_of` listeners_after (Digest.run w inputs p).
Proof.
  pose proof (steady_Reply_run w inputs p) as H1.
  pose proof (steady_DigestReply_run w inputs p) as H2.
  pose proof (steady_Digest_run w inputs p) as H3.
  unfold listeners_after.
  destruct (Reply.run w inputs p) as [[? ?] ?],
    (DigestReply.run w inputs p) as [[? ?] ?],
    (Digest.run w inputs p) as [[? ?] ?].
  split_and!; [apply H1 | apply H2 | apply H3].
Qed.

(** C1 on the code: two start requests for the workspaces w1 and w2,
    one after the other, then a message on the channel of w1.  The
    second request cancels nothing: the slot is unset, the stop branch
    does not run, both listeners are registered afterwards, and the
    message is still answered by the first agent. *)
Theorem second_start_keeps_first_agent_subscribed :
  let w := demo [] [] [] in
  let r := Reply.run w [Post (start "w1"); Post (start "w2");
                        Chat (str "w1") (str "general") (say "ping")] (fresh ∅) in
  r.1.1 = Return tt ∧
  slot_after r = undefined ∧
  (fun l => (wksp_id (sub_wksp l), sub_channel l)) <$> listeners_after r
  = [(str "w1", str "general"); (str "w2", str "general")] ∧
  r.2 = [Join (str "w1") (str "w1") false false (hex_decode zero_psk);
         Setup (str "w1"); Console (LogJoined (str "w1")); Sleep 2000;
         Console (LogJoinedChannel (str "general"));
         Join (str "w2") (str "w2") false false (hex_decode zero_psk);
         Setup (str "w2"); Console (LogJoined (str "w2")); Sleep 2000;
         Console (LogJoinedChannel (str "general"));
         Console (LogMessage (say "ping")); Generate (str "ping");
         SendMessage (str "general")
           {| uuid := []; user := str "bot"; ts := 0; message := str "AGENT: pong" |}].
Proof. cbv zeta. by split_and!. Qed.

(** C6 on the code.  A request with a one-byte key makes the AI-reply
    handler throw before its [try]: no [500 {ok:false}] body is written.
    A start that succeeds never answers, because the handler awaits an
    agent that runs forever.  The digest handler answers [200 {ok:true}]
    before the setup has run, and the setup then fails unheard. *)
Theorem post_agent_answers_diverge :
  let w := demo [] [] [] in
  Reply.post_agent w {| wkspName := str "w1"; psk := str "00"; channel := str "general" |}
    (fresh ∅)
  = (Throw PSK_ERROR, fresh ∅, []) ∧
  (Reply.post_agent w (start "w1") (fresh ∅)).1.1 = Forever ∧
  (Reply.post_agent w (start "w1") (fresh ∅)).2
  = [Join (str "w1") (str "w1") false false (hex_decode zero_psk);
     Setup (str "w1"); Console (LogJoined (str "w1")); Sleep 2000;
     Console (LogJoinedChannel (str "general"))] ∧
  (DigestReply.post_agent w (start "w1") (fresh ∅)).1.1 = Return tt ∧
  (DigestReply.post_agent w (start "w1") (fresh ∅)).2
  = [Respond 200 (ok_true (str "Agent joined workspace w1 on #general"));
     Join (str "w1") (str "w1") false true (hex_decode zero_psk);
     UnhandledRejection NO_METADATA].
Proof. cbv zeta. by split_and!. Qed.

(** * Further properties of the program *)

(** ** The key check *)

Section Keys.

Lemma unhex_range c x : unhex c = Some x -> 0 ≤ x < 16.
Proof.
  unfold unhex, hex_value. intros H.
  repeat case_match; simplify_eq;
    repeat match goal with
           | H : _ && _ = true |- _ => apply andb_true_iff in H as [?%Z.leb_le ?%Z.leb_le]
           end; lia.
Qed.

Lemma hex_decode_cons a b rest :
  hex_decode (a :: b :: rest) =
  match unhex a, unhex b with
  | Some x, Some y => (16 * x + y) :: hex_decode rest
  | _, _ => []
  end.
Proof. done. Qed.

(** [n] bytes come out exactly when the first [2 * n] code units are
    there and are hex digits. *)
Lemma hex_decode_pairs n : ∀ s,
  (n ≤ length (hex_decode s))%nat ↔
  (2 * n ≤ length s)%nat ∧ Forall read_as_digit (take (2 * n) s).
Proof.
  induction n as [|n IH]; intros s.
  - rewrite take_0. split; [intros _; split; [lia | constructor] | lia].
  - replace (2 * S n)%nat with (S (S (2 * n))) by lia.
    destruct s as [|a [|b rest]]; [simpl; lia..|].
    rewrite hex_decode_cons. cbn [take length]. rewrite !Forall_cons.
    unfold read_as_digit at 1 2, hexdigit at 1 2. fold (unhex a) (unhex b).
    destruct (unhex a) as [x|], (unhex b) as [y|]; cbn [length];
      rewrite ?is_Some_alt; try (split; [lia | tauto]).
    specialize (IH rest). split.
    + intros H. assert (n ≤ length (hex_decode rest))%nat as H' by lia.
      apply IH in H'. split_and!; auto; try lia; tauto.
    + intros (? & _ & _ & ?). assert (n ≤ length (hex_decode rest))%nat; [|lia].
      apply IH. split; [lia | done].
Qed.

Lemma accepted_key_length s : accepted_key s ↔ length (hex_decode s) = 32%nat.
Proof.
  pose proof (hex_decode_pairs 32 s) as H32. pose proof (hex_decode_pairs 33 s) as H33.
  change (2 * 32)%nat with 64%nat in H32. change (2 * 33)%nat with 66%nat in H33.
  unfold accepted_key. rewrite <- H32, <- H33. lia.
Qed.

(** A hex digit is below 256: the decoder reads it as it is. *)
Lemma hexdigit_low_byte c : hexdigit c -> Z.land c 255 = c.
Proof.
  unfold hexdigit, hex_value. intros H.
  change 255 with (Z.ones 8). rewrite Z.land_ones by lia.
  apply Z.mod_small.
  repeat case_match; try (by destruct H as [? [=]]);
    repeat match goal with
           | H : _ && _ = true |- _ => apply andb_true_iff in H as [?%Z.leb_le ?%Z.leb_le]
           end; lia.
Qed.

Lemma hexdigit_read c : hexdigit c -> read_as_digit c.
Proof. intros H. unfold read_as_digit. by rewrite hexdigit_low_byte. Qed.

(** Sixty-four hex digits decode to 32 bytes. *)
Lemma hex_digits_decode k :
  length k = 64%nat -> Forall hexdigit k -> length (hex_decode k) = 32%nat.
Proof.
  intros Hlen Hhex. apply accepted_key_length. unfold accepted_key.
  rewrite !take_ge by lia. split; [split; [lia|] | lia].
  eapply Forall_impl; [exact Hhex | apply hexdigit_read].
Qed.

Lemma hex_decode_bytes n : ∀ s, (length s ≤ n)%nat -> Forall is_byte (hex_decode s).
Proof.
  induction n as [|n IH]; intros s Hn.
  - destruct s; [constructor | simpl in Hn; lia].
  - destruct s as [|a [|b rest]]; [constructor..|].
    rewrite hex_decode_cons.
    destruct (unhex a) as [x|] eqn:Ha, (unhex b) as [y|] eqn:Hb; try constructor.
    + apply unhex_range in Ha, Hb. unfold is_byte. lia.
    + apply IH. simpl in Hn. lia.
Qed.

End Keys.

(** X2. The [POST /agent] handlers reject a key (by throwing the PSK
    error) exactly when its hex decoding is not 32 bytes long, that is
    unless the text starts with 64 code units that the decoder reads as
    hex digits and that are not followed by two more of them.  The
    decoder looks at the low byte of a code unit only; a 65th digit, or
    anything after a unit that is not read as a digit, is silently
    ignored. *)
Theorem key_check_accepts (w : World) (req : request) (p : process) :
  ((Reply.post_agent w req p).1.1 = Throw PSK_ERROR ↔ ¬ accepted_key (psk req)) ∧
  ((DigestReply.post_agent w req p).1.1 = Throw PSK_ERROR ↔ ¬ accepted_key (psk req)) ∧
  ((Digest.post_agent w req p).1.1 = Throw PSK_ERROR ↔ ¬ accepted_key (psk req)).
Proof.
  rewrite accepted_key_length.
  unfold Reply.post_agent, DigestReply.post_agent, Digest.post_agent. cbv zeta.
  destruct (length (hex_decode (psk req)) =? 32)%nat eqn:E; cbn [negb].
  - apply Nat.eqb_eq in E.
    split_and!; (split; [|done]); intros H; exfalso; revert H;
      apply try_catch_responds; by intros.
  - apply Nat.eqb_neq in E. by split_and!.
Qed.

(** Sixty-four zeros pass with a trailing digit or trailing text; a
    non-hex character among the first 64 does not.  Sixty-four times
    U+0130 pass as well, and two of them after the zeros are a 33rd
    byte. *)
Example key_check_edges :
  accepted_key (zero_psk ++ str "0") ∧
  accepted_key (zero_psk ++ str "0x00") ∧
  accepted_key (zero_psk ++ str " and more") ∧
  accepted_key (replicate 64 304) ∧
  hex_decode (replicate 64 304) = hex_decode zero_psk ∧
  ¬ accepted_key (zero_psk ++ str "00") ∧
  ¬ accepted_key (zero_psk ++ [304; 304]) ∧
  ¬ accepted_key (str "0x" ++ zero_psk).
Proof. rewrite !accepted_key_length. by vm_compute. Qed.

(** ** What every event of a run looks like *)

Section Emits.

Context {P : event -> Prop}.

Lemma emits_ret {A} (a : A) : emits P (ret a).
Proof. intros p. constructor. Qed.

Lemma emits_bind {A B} (m : M A) (f : A -> M B) :
  emits P m -> (∀ a, emits P (f a)) -> emits P (m ≫= f).
Proof.
  intros Hm Hf p. unfold mbind, M_bind, bind. specialize (Hm p).
  destruct (m p) as [[o p1] t1]. destruct o as [a| | |]; try exact Hm.
  specialize (Hf a p1). destruct (f a p1) as [[o2 p2] t2]. by apply Forall_app.
Qed.

Lemma emits_emit_all (es : list event) : Forall P es -> emits P (emit_all es).
Proof. by intros H p. Qed.

Lemma emits_emit (e : event) : P e -> emits P (emit e).
Proof. intros H p. by constructor. Qed.

Lemma emits_throw {A} (e : error) : emits P (@throw A e).
Proof. intros p. constructor. Qed.

Lemma emits_exit {A} (c : Z) : emits P (@exit A c).
Proof. intros p. constructor. Qed.

Lemma emits_forever {A} : emits P (@forever A).
Proof. intros p. constructor. Qed.

Lemma emits_read {A} (f : process -> A) : emits P (read f).
Proof. intros p. constructor. Qed.

Lemma emits_write f : emits P (write f).
Proof. intros p. constructor. Qed.

Lemma emits_await {A} (r : error + A) : emits P (await r).
Proof. destruct r; [apply emits_throw | apply emits_ret]. Qed.

Lemma emits_try_catch {A} (m : M A) (h : error -> M A) :
  emits P m -> (∀ e, emits P (h e)) -> emits P (try_catch m h).
Proof.
  intros Hm Hh p. unfold try_catch. specialize (Hm p).
  destruct (m p) as [[o p1] t1]. destruct o as [a|e| |]; try exact Hm.
  specialize (Hh e p1). destruct (h e p1) as [[o2 p2] t2]. by apply Forall_app.
Qed.

Lemma emits_no_await {A} (task : M unit) (k : M A) :
  (∀ e, P (UnhandledRejection e)) -> emits P k -> emits P task -> emits P (no_await task k).
Proof.
  intros HP Hk Ht p. unfold no_await. specialize (Hk p).
  destruct (k p) as [[o p1] t1]. specialize (Ht p1).
  destruct o as [a|e| |]; try exact Hk;
    destruct (task p1) as [[o2 p2] t2]; destruct o2; cbn in *;
    rewrite ?Forall_app; repeat split; auto.
Qed.

Lemma emits_callback (h : M unit) :
  (∀ e, P (UnhandledRejection e)) -> emits P h -> emits P (callback h).
Proof.
  intros HP Hh p. unfold callback. specialize (Hh p).
  destruct (h p) as [[o p1] t1]. destruct o; cbn in *; rewrite ?Forall_app; auto.
Qed.

Lemma emits_event_loop post listener typed inputs :
  (∀ e, P (UnhandledRejection e)) ->
  (∀ req, emits P (post req)) ->
  (∀ l c m, emits P (listener l c m)) ->
  (∀ l data, Stdin data ∈ inputs -> emits P (typed l data)) ->
  emits P (event_loop post listener typed inputs).
Proof.
  intros HP Hpost Hlistener.
  induction inputs as [|[req|wk c m|data] rest IH]; intros Htyped; cbn [event_loop].
  - apply emits_ret.
  - apply emits_bind; [by apply emits_callback|]. intros _.
    apply IH. intros l data Hin. apply Htyped. by right.
  - apply emits_bind; [|intros _; apply IH; intros l data Hin; apply Htyped; by right].
    unfold deliver.
    apply emits_bind; [apply emits_read|]. intros ls.
    induction ls as [|l ls IHl]; cbn [foldr]; [apply emits_ret|].
    apply emits_bind; [|done].
    case_decide; [by apply emits_callback | apply emits_ret].
  - apply emits_bind; [|intros _; apply IH; intros l d Hin; apply Htyped; by right].
    unfold deliver_data.
    apply emits_bind; [apply emits_read|]. intros ls.
    induction ls as [|l ls IHl]; cbn [foldr]; [apply emits_ret|].
    apply emits_bind; [|done].
    apply emits_callback; [done|]. apply Htyped. by left.
Qed.

End Emits.

Ltac emits_step :=
  lazymatch goal with
  | |- emits _ (_ ≫= _) => apply emits_bind; [|intros ?]
  | |- emits _ (ret _) => apply emits_ret
  | |- emits _ (emit_all _) => apply emits_emit_all
  | |- emits _ (emit _) => apply emits_emit
  | |- emits _ (throw _) => apply emits_throw
  | |- emits _ (exit _) => apply emits_exit
  | |- emits _ forever => apply emits_forever
  | |- emits _ (read _) => apply emits_read
  | |- emits _ (write _) => apply emits_write
  | |- emits _ (set_stats _) => apply emits_write
  | |- emits _ (set_activeAgent _) => apply emits_write
  | |- emits _ (on_chat _) => apply emits_write
  | |- emits _ (on_data _) => apply emits_write
  | |- emits _ (await _) => apply emits_await
  | |- emits _ (try_catch _ _) => apply emits_try_catch; [|intros ?]
  | |- emits _ (no_await _ _) => apply emits_no_await; [done| |]
  | |- emits _ (callback _) => apply emits_callback; [done|]
  | |- emits _ (match ?x with _ => _ end) => destruct x eqn:?
  | |- emits _ stop_previous => unfold stop_previous
  | |- emits _ (join_call _ _ _ _ _ _) => unfold join_call
  | |- emits _ (setup_call _ _) => unfold setup_call
  | |- emits _ (list_channels _) => unfold list_channels
  | |- emits _ (enter_channel _ _) => unfold enter_channel
  | |- emits _ (ask _ _) => unfold ask
  | |- emits _ (digest_email _ _) => unfold digest_email; cbv zeta
  end.

(** The events a program emits, up to the side conditions on single
    events that [tac] proves. *)
Ltac emits_with tac := repeat emits_step; try (simpl; tac).

Section Joins.

Variable w : World.

Lemma history_emits (P : event -> Prop) (ms : list ChatMessage) :
  (∀ l, P (Console l)) -> Forall P ((fun m => Console (LogMessage m)) <$> ms).
Proof. intros HP. apply Forall_fmap, Forall_true. intros m. apply HP. Qed.

Lemma plain_setup_joins n key :
  length key = 32%nat -> Forall is_byte key -> emits (join_as false) (Cli.setupWorkspace w n key).
Proof. intros Hlen Hbytes. unfold Cli.setupWorkspace. emits_with done. Qed.

Lemma relaxed_setup_joins n key :
  length key = 32%nat -> Forall is_byte key ->
  emits (join_as true) (DigestReply.setupWorkspace w n key).
Proof. intros Hlen Hbytes. unfold DigestReply.setupWorkspace. emits_with done. Qed.

Lemma Reply_post_joins req : emits (join_as false) (Reply.post_agent w req).
Proof.
  unfold Reply.post_agent. cbv zeta.
  destruct (length (hex_decode (psk req)) =? 32)%nat eqn:E; cbn [negb]; [|apply emits_throw].
  apply Nat.eqb_eq in E. pose proof (hex_decode_bytes _ _ (Nat.le_refl (length (psk req)))).
  unfold Reply.startAgent, Reply.setupWorkspace.
  emits_with done; try (by apply plain_setup_joins); by apply history_emits.
Qed.

Lemma DigestReply_post_joins req : emits (join_as true) (DigestReply.post_agent w req).
Proof.
  unfold DigestReply.post_agent. cbv zeta.
  destruct (length (hex_decode (psk req)) =? 32)%nat eqn:E; cbn [negb]; [|apply emits_throw].
  apply Nat.eqb_eq in E. pose proof (hex_decode_bytes _ _ (Nat.le_refl (length (psk req)))).
  unfold DigestReply.startAgent.
  emits_with done; try (by apply relaxed_setup_joins); by apply history_emits.
Qed.

Lemma Digest_post_joins req : emits (join_as true) (Digest.post_agent w req).
Proof.
  unfold Digest.post_agent. cbv zeta.
  destruct (length (hex_decode (psk req)) =? 32)%nat eqn:E; cbn [negb]; [|apply emits_throw].
  apply Nat.eqb_eq in E. pose proof (hex_decode_bytes _ _ (Nat.le_refl (length (psk req)))).
  unfold Digest.startAgent, Digest.setupWorkspace.
  emits_with done; by apply relaxed_setup_joins.
Qed.

Lemma Cli_main_joins argv : emits (join_as false) (Cli.main w argv).
Proof.
  unfold Cli.main. destruct (length argv <? 3)%nat; [emits_with done|].
  cbv zeta. apply emits_bind; [unfold Cli.or_ask; emits_with done|]. intros email.
  apply emits_bind; [unfold Cli.or_ask; emits_with done|]. intros pskHex.
  destruct (length (hex_decode pskHex) =? 32)%nat eqn:E; cbn [negb]; [|apply emits_throw].
  apply Nat.eqb_eq in E. pose proof (hex_decode_bytes _ _ (Nat.le_refl (length pskHex))).
  emits_with done; try (by apply plain_setup_joins); by apply history_emits.
Qed.

End Joins.

(** X3. Whatever requests, chat events and console input a server
    started by [startHttpServer] handles, and whatever the command line
    of the client, every call of [Workspace.join] that is issued has
    the workspace name as its first and second argument, [false] as its
    third, the flag of its revision as its fourth ([false] in the reply
    agent and the client, [true] in the digest agents) and a key of
    exactly 32 bytes as its fifth.  (The stand-alone digest agent has a
    second way in, the resume from [./wksp.env] in its [main], where
    the stored key is passed on unchecked; [Digest.run] is the server
    and does not cover it.) *)
Theorem joins_carry_a_checked_key (w : World) (inputs : list input) (argv : list jsstring)
    (p : process) :
  Forall (join_as false) (Reply.run w inputs p).2 ∧
  Forall (join_as true) (DigestReply.run w inputs p).2 ∧
  Forall (join_as true) (Digest.run w inputs p).2 ∧
  Forall (join_as false) (Cli.main w argv p).2.
Proof.
  split_and!.
  - apply (emits_event_loop (P := join_as false));
      [done | apply Reply_post_joins | | intros; apply emits_ret].
    intros l c m. unfold Reply.onChat. emits_with done.
  - apply (emits_event_loop (P := join_as true));
      [done | apply DigestReply_post_joins | |].
    + intros l c m. unfold DigestReply.onChat. cbv zeta. emits_with done.
    + intros l data _. unfold DigestReply.onData. cbv zeta. emits_with done.
  - apply (emits_event_loop (P := join_as true));
      [done | apply Digest_post_joins | | intros; apply emits_ret].
    intros l c m. unfold Digest.onChat. emits_with done.
  - apply Cli_main_joins.
Qed.

(** ** The answers of the control endpoint *)

#[local] Arguments responses : simpl never.

Section Answers.

Lemma responses_app t1 t2 : responses (t1 ++ t2) = responses t1 ++ responses t2.
Proof. apply omap_app. Qed.

Lemma responses_respond s b t : responses (Respond s b :: t) = (s, b) :: responses t.
Proof. done. Qed.

Lemma responses_skip e t : no_response e -> responses (e :: t) = responses t.
Proof. by destruct e. Qed.

Lemma responses_none t : Forall no_response t -> responses t = [].
Proof.
  induction 1 as [|e t He _ IH]; [done|].
  unfold responses in *. cbn. rewrite IH. by destruct e.
Qed.

Lemma never_returns_bind {A B} (m : M A) (f : A -> M B) :
  (∀ a, never_returns (f a)) -> never_returns (m ≫= f).
Proof.
  intros Hf p b. unfold mbind, M_bind, bind.
  destruct (m p) as [[o p1] t1]. destruct o as [a| | |]; try done.
  specialize (Hf a p1 b). by destruct (f a p1) as [[o2 p2] t2].
Qed.

Lemma stop_previous_idle p :
  ¬ is_handle (_activeAgent p) -> stop_previous p = (Return tt, p, []).
Proof.
  intros H. unfold stop_previous. run. unfold read.
  by destruct (_activeAgent p).
Qed.

Lemma stop_previous_returns p :
  ∃ p' t, stop_previous p = (Return tt, p', t) ∧ Forall no_response t ∧
          stats p' = stats p ∧ listeners p' = listeners p.
Proof.
  unfold stop_previous. run. unfold read.
  destruct (_activeAgent p); cbn; eexists _, _; split_and!; try done; by repeat constructor.
Qed.

(** A handler that awaits a task which never resolves: its only
    possible answer is the 500 of its [catch]. *)
Lemma awaited_task_answers {A} (task : M A) (b : body) (p : process) :
  never_returns task -> emits no_response task ->
  let handler :=
    try_catch (stop_previous ;; task ;; emit (Respond 200 b))
      (fun err => emit (Console (LogInviteFailed err)) ;;
                  emit (Respond 500 (ok_false (message_of err)))) in
  responses (handler p).2 = [] ∨
  ∃ e, responses (handler p).2 = [(500, ok_false (message_of e))].
Proof.
  intros Hnever Hquiet. cbv zeta.
  destruct (stop_previous_returns p) as (p' & t0 & E0 & Ht0 & _).
  unfold try_catch, mbind, M_bind, bind. rewrite E0.
  specialize (Hnever p'). specialize (Hquiet p').
  destruct (task p') as [[o pS] tS]. cbn in Hnever, Hquiet.
  destruct o as [a|e| |]; cbn.
  - by destruct (Hnever a).
  - right. exists e. unfold emit. cbn.
    rewrite !responses_app. rewrite (responses_none t0) by done.
    rewrite (responses_none tS) by done. done.
  - left. rewrite responses_app. rewrite (responses_none t0) by done.
    rewrite (responses_none tS) by done. done.
  - left. rewrite responses_app. rewrite (responses_none t0) by done.
    rewrite (responses_none tS) by done. done.
Qed.

(** A handler that starts its task without awaiting it: the answer is
    the 200, whatever the task does. *)
Lemma detached_task_answers (prelude : M unit) (task : M unit) (b : body) (p : process) :
  (∀ q, ∃ q' t, prelude q = (Return tt, q', t) ∧ Forall no_response t) ->
  emits no_response task ->
  let handler :=
    try_catch (prelude ;; no_await task (emit (Respond 200 b)))
      (fun err => emit (Console (LogInviteFailed err)) ;;
                  emit (Respond 500 (ok_false (message_of err)))) in
  responses (handler p).2 = [(200, b)].
Proof.
  intros Hpre Hquiet. cbv zeta.
  destruct (Hpre p) as (p' & t0 & E0 & Ht0).
  unfold try_catch, mbind, M_bind, bind, no_await, emit. rewrite E0.
  specialize (Hquiet p').
  destruct (task p') as [[o pS] tS]. cbn in Hquiet.
  destruct o as [a|e| |]; cbn;
    rewrite ?responses_app, ?responses_respond, ?responses_app;
    rewrite (responses_none t0) by done;
    rewrite (responses_none tS) by done; done.
Qed.

Variable w : World.

Lemma Reply_startAgent_never_returns n key c : never_returns (Reply.startAgent w n key c).
Proof.
  unfold Reply.startAgent. do 3 (apply never_returns_bind; intros ?).
  destruct c.
  - unfold list_channels. apply never_returns_bind. by intros.
  - do 2 (apply never_returns_bind; intros ?). by intros.
Qed.

Lemma Reply_startAgent_quiet n key c : emits no_response (Reply.startAgent w n key c).
Proof.
  unfold Reply.startAgent, Reply.setupWorkspace, Cli.setupWorkspace.
  emits_with done. by apply history_emits.
Qed.

Lemma DigestReply_startAgent_quiet n key c : emits no_response (DigestReply.startAgent w n key c).
Proof.
  unfold DigestReply.startAgent, DigestReply.setupWorkspace.
  emits_with done. by apply history_emits.
Qed.

Lemma Digest_startAgent_quiet n key c : emits no_response (Digest.startAgent w n key c).
Proof.
  unfold Digest.startAgent, Digest.setupWorkspace, DigestReply.setupWorkspace.
  emits_with done.
Qed.

End Answers.

(** X4. In src/node/headless.ts [startAgent] never resolves: every path
    ends in [process.exit] or in the promise that never settles, or it
    rejects.  So the handler of [POST /agent], which awaits it, never
    answers 200: a request gets no answer at all, or the 500 of the
    [catch] block with the error's message. *)
Theorem reply_handler_never_answers_200 (w : World) (req : request) (p : process) :
  (∀ n key c, never_returns (Reply.startAgent w n key c)) ∧
  (responses (Reply.post_agent w req p).2 = [] ∨
   ∃ e, responses (Reply.post_agent w req p).2 = [(500, ok_false (message_of e))]).
Proof.
  split; [apply Reply_startAgent_never_returns|].
  unfold Reply.post_agent. cbv zeta.
  destruct (negb _); [by left|].
  apply awaited_task_answers;
    [apply Reply_startAgent_never_returns | apply Reply_startAgent_quiet].
Qed.

(** X5. The digest handlers answer before the agent has started, since
    [startAgent] is not awaited: for a key that passes the check the
    answer of the replying digest revision is always the 200, and the
    answer of the stand-alone revision is the 200 unless writing
    [./wksp.env] fails; then it is the 500 with that error's message,
    and the agent is not started at all. *)
Theorem digest_handlers_answer_before_the_start (w : World) (req : request) (p : process) :
  length (hex_decode (psk req)) = 32%nat ->
  let content := stringify w req (hex_decode (psk req)) in
  responses (DigestReply.post_agent w req p).2 = [(200, ok_true (joined_message req))] ∧
  responses (Digest.post_agent w req p).2
  = [match writeFileSync w ENV_FILE content with
     | None => (200, ok_true (joined_message req))
     | Some e => (500, ok_false (message_of e))
     end] ∧
  (∀ e, writeFileSync w ENV_FILE content = Some e ->
        (Digest.post_agent w req p).2
        = (stop_previous p).2
            ++ [WriteFile ENV_FILE content; Console (LogInviteFailed e);
                Respond 500 (ok_false (message_of e))] ∧
        listeners_after (Digest.post_agent w req p) = listeners p).
Proof.
  intros Hlen%Nat.eqb_eq. cbv zeta.
  unfold DigestReply.post_agent, Digest.post_agent, listeners_after. cbv zeta.
  rewrite Hlen. cbn [negb]. split.
  { apply (detached_task_answers stop_previous).
    - intros q. destruct (stop_previous_returns q) as (q' & t & ? & ? & _). eauto.
    - apply DigestReply_startAgent_quiet. }
  destruct (stop_previous_returns p) as (p' & t0 & E0 & Ht0 & _ & Hl).
  pose proof (Digest_startAgent_quiet w (wkspName req) (hex_decode (psk req)) (channel req) p')
    as Hquiet.
  unfold try_catch, mbind, M_bind, bind, no_await, emit, throw, ret. rewrite E0.
  fold ENV_FILE.
  destruct (writeFileSync w ENV_FILE _) as [e|]; cbn.
  - split.
    + rewrite !responses_app. rewrite (responses_none t0) by done. done.
    + intros e' [= <-]. split; [by rewrite <- !app_assoc | done].
  - split; [|done].
    destruct (Digest.startAgent w _ _ _ p') as [[o pS] tS]. cbn in Hquiet.
    destruct o; cbn;
      rewrite ?responses_app, (responses_skip (WriteFile _ _)) by exact I;
      rewrite ?responses_respond, ?responses_app;
      rewrite (responses_none t0) by done;
      rewrite (responses_none tS) by done; done.
Qed.

Lemma digest_answers_witness :
  responses (DigestReply.post_agent (demo [] [] []) (start "w1") (fresh ∅)).2
  = [(200, ok_true (str "Agent joined workspace w1 on #general"))].
Proof.
  apply (digest_handlers_answer_before_the_start (demo [] [] []) (start "w1") (fresh ∅)).
  reflexivity.
Defined.

Section ReplyStart.

Variable w : World.

Lemma find_channel_none channels c : c ∉ channels -> find_channel channels c = None.
Proof.
  intros H. unfold find_channel.
  destruct (list_find _ channels) as [[i x]|] eqn:E; [|done].
  apply list_find_Some in E as (Hx%list_elem_of_lookup_2 & -> & _). done.
Qed.

Lemma find_channel_some channels c : c ∈ channels -> find_channel channels c = Some c.
Proof.
  intros H. unfold find_channel.
  destruct (list_find _ channels) as [[i x]|] eqn:E.
  - by apply list_find_Some in E as (_ & -> & _).
  - apply list_find_None in E. rewrite Forall_forall in E. by destruct (E c H).
Qed.

End ReplyStart.

(** X6. In src/node/headless.ts a start whose workspace setup fails is
    answered with the 500 and the error's message, and registers no
    listener: both when the join of a workspace without stored metadata
    is rejected and when [Workspace.setup] is rejected for a workspace
    that is already joined (for which no join is issued). *)
Theorem reply_setup_failure_answers_500 (w : World) (req : request) (p : process) (e : error) :
  ¬ is_handle (_activeAgent p) ->
  length (hex_decode (psk req)) = 32%nat ->
  let key := hex_decode (psk req) in
  (∀ joined,
     stats p !! wkspName req = None ->
     Workspace_join w (wkspName req) (wkspName req) false false key (stats p) = (Some e, joined) ->
     Reply.post_agent w req p
     = (Return tt,
        {| _activeAgent := _activeAgent p; stats := joined; listeners := listeners p;
           data_listeners := data_listeners p |},
        [Join (wkspName req) (wkspName req) false false key;
         Console (LogInviteFailed e); Respond 500 (ok_false (message_of e))])) ∧
  (∀ meta,
     stats p !! wkspName req = Some meta ->
     Workspace_setup w (escapeUrlName w (wkspName req)) = inl e ->
     Reply.post_agent w req p
     = (Return tt, p,
        [Setup (escapeUrlName w (wkspName req));
         Console (LogInviteFailed e); Respond 500 (ok_false (message_of e))])).
Proof.
  intros Hslot Hlen%Nat.eqb_eq. cbv zeta.
  unfold Reply.post_agent. cbv zeta. rewrite Hlen. cbn [negb].
  unfold try_catch, mbind, M_bind, bind. rewrite (stop_previous_idle p Hslot).
  unfold Reply.startAgent, Reply.setupWorkspace, Cli.setupWorkspace, join_call, setup_call,
    read, set_stats, write.
  split.
  - intros joined Hnone Hjoin. run. rewrite Hnone. cbn. rewrite Hjoin. done.
  - intros meta Hsome Hsetup. run. rewrite Hsome. cbn. rewrite Hsetup. done.
Qed.

Lemma reply_setup_failure_witness :
  (Reply.post_agent offline (start "w1") (fresh ∅)).2
  = [Join (str "w1") (str "w1") false false (hex_decode zero_psk);
     Console (LogInviteFailed (Rejected (str "no route")));
     Respond 500 (ok_false (str "no route"))].
Proof.
  destruct (reply_setup_failure_answers_500 offline (start "w1") (fresh ∅)
              (Rejected (str "no route"))) as [H _].
  - by intros [].
  - reflexivity.
  - by rewrite (H ∅).
Defined.

(** X7. In src/node/headless.ts, once the workspace is set up, a start
    request ends in one of three ways, none of them an answer: an empty
    channel name lists the channels and ends the whole process with
    exit code 0; a channel that does not exist ends it with exit code 1;
    a channel that exists registers exactly one listener for it and the
    handler waits forever.  In the first two cases nothing is
    subscribed. *)
Theorem reply_start_outcomes (w : World) (req : request) (p : process)
    (meta : WkspMeta) (wksp : Workspace) :
  ¬ is_handle (_activeAgent p) ->
  length (hex_decode (psk req)) = 32%nat ->
  stats p !! wkspName req = Some meta ->
  Workspace_setup w (escapeUrlName w (wkspName req)) = inr wksp ->
  let head := [Setup (escapeUrlName w (wkspName req));
               Console (LogJoined (wkspName req)); Sleep 2000] in
  (channel req = [] ->
   Reply.post_agent w req p
   = (Exit 0, p, head ++ [Console (LogChannels (getChannels wksp))])) ∧
  (channel req ≠ [] -> channel req ∉ getChannels wksp ->
   Reply.post_agent w req p
   = (Exit 1, p, head ++ [Console (LogNotFound (channel req) (getChannels wksp))])) ∧
  (channel req ≠ [] -> channel req ∈ getChannels wksp ->
   Reply.post_agent w req p
   = (Forever,
      {| _activeAgent := _activeAgent p; stats := stats p;
         listeners := listeners p ++ [{| sub_wksp := wksp; sub_channel := channel req |}];
         data_listeners := data_listeners p |},
      head ++ Console (LogJoinedChannel (channel req))
           :: ((fun m => Console (LogMessage m)) <$> getMessages wksp (channel req)))).
Proof.
  intros Hslot Hlen%Nat.eqb_eq Hmeta Hsetup. cbv zeta.
  unfold Reply.post_agent. cbv zeta. rewrite Hlen. cbn [negb].
  unfold try_catch, mbind, M_bind, bind. rewrite (stop_previous_idle p Hslot).
  unfold Reply.startAgent, Reply.setupWorkspace, Cli.setupWorkspace, setup_call, read,
    list_channels, enter_channel, on_chat, write, emit_all.
  split_and!.
  - intros ->. run. rewrite Hmeta. cbn. rewrite Hsetup. done.
  - intros Hne Hnot. run. rewrite Hmeta. cbn. rewrite Hsetup. cbn.
    destruct (channel req) as [|c cs] eqn:Ec; [done|]. rewrite <- Ec in *.
    rewrite (find_channel_none _ _ Hnot). done.
  - intros Hne Hin. run. rewrite Hmeta. cbn. rewrite Hsetup. cbn.
    destruct (channel req) as [|c cs] eqn:Ec; [done|]. rewrite <- Ec in *.
    rewrite (find_channel_some _ _ Hin). cbn. by rewrite app_nil_r.
Qed.

Lemma reply_start_outcomes_witness :
  let joined := fresh {[ str "w1" := {| ignore := false; meta_rest := [] |} ]} in
  (Reply.post_agent (demo [] [] [])
     {| wkspName := str "w1"; psk := zero_psk; channel := str "nowhere" |} joined).1.1
  = Exit 1.
Proof.
  cbv zeta.
  destruct (reply_start_outcomes (demo [] [] [])
              {| wkspName := str "w1"; psk := zero_psk; channel := str "nowhere" |}
              (fresh {[ str "w1" := {| ignore := false; meta_rest := [] |} ]})
              {| ignore := false; meta_rest := [] |} (demo_wksp [] [] (str "w1")))
    as (_ & H & _); [by intros [] | reflexivity | reflexivity | reflexivity |].
  rewrite H; [reflexivity | done |].
  intros Hin. cbn in Hin. apply list_elem_of_singleton in Hin. by vm_compute in Hin.
Defined.

(** X8. The stand-alone digest agent does not check that the channel
    exists (the check is commented out): for a workspace that is
    already joined, any non-empty channel name, listed or not, gets a
    listener and the trigger message "input" published on it, after
    the relaxed-certificate flag has been written back to the metadata
    store. *)
Theorem digest_start_skips_the_channel_check (w : World) (n : jsstring) (key : bytes)
    (c : jsstring) (p : process) (meta : WkspMeta) (wksp : Workspace) :
  c ≠ [] ->
  stats p !! n = Some meta ->
  Workspace_setup w (escapeUrlName w n) = inr wksp ->
  let relaxed := {| ignore := true; meta_rest := meta_rest meta |} in
  Digest.startAgent w n key c p
  = (Forever,
     {| _activeAgent := _activeAgent p; stats := <[n := relaxed]> (stats p);
        listeners := listeners p ++ [{| sub_wksp := wksp; sub_channel := c |}];
        data_listeners := data_listeners p |},
     [StatsPut n relaxed; Setup (escapeUrlName w n); Console (LogJoined n); Sleep 2000;
      SendMessage c {| uuid := []; user := get_identity_name w; ts := now w;
                       message := str "input" |}]).
Proof.
  intros Hc Hmeta Hsetup. cbv zeta.
  unfold Digest.startAgent, Digest.setupWorkspace, DigestReply.setupWorkspace, setup_call,
    read, set_stats, on_chat, write.
  run. rewrite Hmeta. cbn. rewrite Hsetup. cbn. by destruct c.
Qed.

Lemma digest_start_witness :
  let joined := fresh {[ str "w1" := {| ignore := false; meta_rest := [] |} ]} in
  (Digest.startAgent (demo [] [] []) (str "w1") [] (str "nowhere") joined).2
  = [StatsPut (str "w1") {| ignore := true; meta_rest := [] |}; Setup (str "w1");
     Console (LogJoined (str "w1")); Sleep 2000;
     SendMessage (str "nowhere")
       {| uuid := []; user := str "bot"; ts := 0; message := str "input" |}].
Proof.
  cbv zeta.
  rewrite (digest_start_skips_the_channel_check (demo [] [] []) (str "w1") [] (str "nowhere")
             (fresh {[ str "w1" := {| ignore := false; meta_rest := [] |} ]})
             {| ignore := false; meta_rest := [] |} (demo_wksp [] [] (str "w1"))).
  - reflexivity.
  - done.
  - reflexivity.
  - reflexivity.
Defined.

(** ** Workspace setup and the metadata store *)

(** X9. The plain [setupWorkspace] (src/node/headless.ts and the
    command-line client) joins a workspace only when no metadata is
    stored for it.  With stored metadata no join is issued, the key is
    not used and the store is left as it is; without, the join comes
    first, with the name as label and both flags off, and
    [Workspace.setup] follows only if the join was accepted. *)
Theorem plain_setup_joins_once (w : World) (n : jsstring) (key : bytes) (p : process) :
  let setup := match Workspace_setup w (escapeUrlName w n) with
               | inl e => Throw e
               | inr wksp => Return wksp
               end in
  (∀ meta, stats p !! n = Some meta ->
     Reply.setupWorkspace w n key p = (setup, p, [Setup (escapeUrlName w n)])) ∧
  (∀ r joined, stats p !! n = None ->
     Workspace_join w n n false false key (stats p) = (r, joined) ->
     Reply.setupWorkspace w n key p
     = (match r with Some e => Throw e | None => setup end,
        {| _activeAgent := _activeAgent p; stats := joined; listeners := listeners p;
           data_listeners := data_listeners p |},
        Join n n false false key
          :: match r with Some _ => [] | None => [Setup (escapeUrlName w n)] end)).
Proof.
  cbv zeta. unfold Reply.setupWorkspace, Cli.setupWorkspace, join_call, setup_call,
    read, set_stats, write.
  split.
  - intros meta Hmeta. run. rewrite Hmeta. cbn.
    by destruct (Workspace_setup w (escapeUrlName w n)).
  - intros r joined Hnone Hjoin. run. rewrite Hnone. cbn. rewrite Hjoin.
    destruct r; cbn; [done|]. by destruct (Workspace_setup w (escapeUrlName w n)).
Qed.

Lemma plain_setup_witness :
  let joined := fresh {[ str "w1" := {| ignore := false; meta_rest := [] |} ]} in
  Reply.setupWorkspace (demo [] [] []) (str "w1") [] joined
  = (Return (demo_wksp [] [] (str "w1")), joined, [Setup (str "w1")]).
Proof.
  cbv zeta.
  apply (proj1 (plain_setup_joins_once (demo [] [] []) (str "w1") []
                  (fresh {[ str "w1" := {| ignore := false; meta_rest := [] |} ]}))
           {| ignore := false; meta_rest := [] |}).
  reflexivity.
Defined.

(** X10. For a workspace with stored metadata the [setupWorkspace] of
    the digest agents issues no join, sets the relaxed-certificate flag
    on the stored record and puts it back before [Workspace.setup]:
    afterwards the record of that workspace has the flag set and its
    other content unchanged, the records of all other workspaces are
    untouched, and a second setup changes nothing more. *)
Theorem relaxed_setup_persists_the_flag (w : World) (n : jsstring) (key : bytes) (p : process)
    (meta : WkspMeta) :
  stats p !! n = Some meta ->
  let relaxed := {| ignore := true; meta_rest := meta_rest meta |} in
  let r := DigestReply.setupWorkspace w n key p in
  r.2 = [StatsPut n relaxed; Setup (escapeUrlName w n)] ∧
  stats r.1.2 !! n = Some relaxed ∧
  (∀ n', n' ≠ n -> stats r.1.2 !! n' = stats p !! n') ∧
  _activeAgent r.1.2 = _activeAgent p ∧
  listeners r.1.2 = listeners p ∧
  DigestReply.setupWorkspace w n key r.1.2 = r.
Proof.
  intros Hmeta. cbv zeta.
  assert (∀ q m, stats q !! n = Some m ->
            DigestReply.setupWorkspace w n key q
            = (match Workspace_setup w (escapeUrlName w n) with
               | inl e => Throw e
               | inr wksp => Return wksp
               end,
               {| _activeAgent := _activeAgent q;
                  stats := <[n := {| ignore := true; meta_rest := meta_rest m |}]> (stats q);
                  listeners := listeners q;
                  data_listeners := data_listeners q |},
               [StatsPut n {| ignore := true; meta_rest := meta_rest m |};
                Setup (escapeUrlName w n)])) as Hrun.
  { intros q m Hm. unfold DigestReply.setupWorkspace, setup_call, read, set_stats, write.
    run. rewrite Hm. cbn. by destruct (Workspace_setup w (escapeUrlName w n)). }
  rewrite (Hrun p meta Hmeta). cbn. split_and!; try done.
  - apply lookup_insert_eq.
  - intros n' Hn'. by apply lookup_insert_ne.
  - rewrite (Hrun _ {| ignore := true; meta_rest := meta_rest meta |})
      by apply lookup_insert_eq.
    cbn. by rewrite insert_insert_eq.
Qed.

Lemma relaxed_setup_witness :
  let joined := fresh {[ str "w1" := {| ignore := false; meta_rest := str "keys" |} ]} in
  stats (DigestReply.setupWorkspace (demo [] [] []) (str "w1") [] joined).1.2 !! str "w1"
  = Some {| ignore := true; meta_rest := str "keys" |}.
Proof.
  cbv zeta.
  apply (relaxed_setup_persists_the_flag (demo [] [] []) (str "w1") []
           (fresh {[ str "w1" := {| ignore := false; meta_rest := str "keys" |} ]})
           {| ignore := false; meta_rest := str "keys" |}).
  reflexivity.
Defined.

(** ** What the agents publish *)

Section Published.

Lemma starts_with_app pre s t : starts_with pre s -> starts_with pre (s ++ t).
Proof. intros [rest ->]. exists (rest ++ t). by rewrite app_assoc. Qed.

Lemma foldl_starts_with {A} pre (f : list Z -> A -> list Z) (l : list A) (acc : list Z) :
  (∀ acc x, starts_with pre acc -> starts_with pre (f acc x)) ->
  starts_with pre acc -> starts_with pre (foldl f acc l).
Proof.
  intros Hf. revert acc. induction l as [|x l IH]; intros acc Hacc; [done|].
  cbn. apply IH. by apply Hf.
Qed.

Lemma report_head_sentinel wksp : starts_with AGENT_ID (DigestReply.report_head wksp).
Proof.
  unfold DigestReply.report_head. cbv zeta.
  apply starts_with_app, foldl_starts_with.
  - intros acc pn Hacc. apply starts_with_app, foldl_starts_with; [|done].
    intros acc' path Hacc'. by apply starts_with_app.
  - apply starts_with_app, foldl_starts_with.
    + intros acc pn Hacc. by apply starts_with_app.
    + by eexists.
Qed.

Lemma digest_email_trace w wksp p :
  (digest_email w wksp p).2 = [Sleep 20000] ∧ (digest_email w wksp p).1.2 = p.
Proof.
  unfold digest_email. cbv zeta. run.
  destruct (fileContents wksp); cbn; [|done].
  by destruct (readFileSync w TEMPLATE).
Qed.

End Published.

(** X11. The agents that answer on the channel never answer
    themselves: whatever the AI-reply listener or the replying digest
    listener publishes goes to its own channel and starts with the
    sentinel "AGENT: ", so when the chat delivers it back the same
    listener only logs it. *)
Theorem agents_ignore_their_own_messages (w : World) (wksp : Workspace)
    (c mc : jsstring) (m : ChatMessage) (p : process) (c' : jsstring) (m' : ChatMessage) :
  SendMessage c' m' ∈ (Reply.onChat w c mc m p).2
  ∨ SendMessage c' m' ∈ (DigestReply.onChat w wksp c mc m p).2 ->
  c' = c ∧
  starts_with AGENT_ID (message m') ∧
  ∀ q, Reply.onChat w c c' m' q = (Return tt, q, [Console (LogMessage m')]) ∧
       DigestReply.onChat w wksp c c' m' q = (Return tt, q, [Console (LogMessage m')]).
Proof.
  intros Hsent.
  assert (c' = c ∧ starts_with AGENT_ID (message m')) as [-> Hm'].
  { destruct Hsent as [H|H]; revert H.
    - unfold Reply.onChat. repeat case_decide; run;
        try destruct (ai_generate w (message m)); cbn;
        rewrite ?elem_of_cons, ?elem_of_nil; intros Hin; destruct_or?; simplify_eq.
      split; [done|]. by eexists.
    - unfold DigestReply.onChat. cbv zeta. repeat case_decide; run;
        try (destruct (digest_email_trace w wksp p) as [Ht _]; revert Ht;
             destruct (digest_email w wksp p) as [[o q] t]; cbn; intros ->;
             destruct o); cbn;
        rewrite ?elem_of_cons, ?elem_of_nil; intros Hin; destruct_or?; simplify_eq.
      split; [done|]. cbn. rewrite <- app_assoc.
      apply starts_with_app, report_head_sentinel. }
  split; [done|]. split; [done|]. intros q.
  apply guard_spec in Hm'. unfold Reply.onChat, DigestReply.onChat.
  split; repeat case_decide; done.
Qed.

Lemma own_messages_witness :
  Reply.onChat (demo [] [] []) (str "general") (str "general")
    {| uuid := []; user := str "bot"; ts := 0; message := str "AGENT: pong" |} (fresh ∅)
  = (Return tt, fresh ∅,
     [Console (LogMessage
                 {| uuid := []; user := str "bot"; ts := 0; message := str "AGENT: pong" |})]).
Proof.
  apply (agents_ignore_their_own_messages (demo [] [] []) (demo_wksp [] [] [])
           (str "general") (str "general") (say "ping") (fresh ∅)).
  left. apply list_elem_of_In. vm_compute. tauto.
Defined.

(** X12. The two kinds of agent never mix their behaviours, whatever
    requests, chat events and console input a server process handles:
    the AI-reply server sends no mail and publishes only messages that
    start with the sentinel; the replying digest server calls no text
    generation, and what it publishes either starts with the sentinel
    or is the trimmed text of a chunk typed at its console (which goes
    out without the sentinel); the stand-alone digest server calls no
    text generation and publishes nothing but its trigger message
    "input". *)
Theorem dispatch_modes_never_mix (w : World) (inputs : list input) (p : process) :
  Forall (fun e => no_mail e ∧ carries_sentinel e) (Reply.run w inputs p).2 ∧
  Forall (fun e => no_generation e ∧ report_or_typed inputs e) (DigestReply.run w inputs p).2 ∧
  Forall (fun e => no_generation e ∧ only_the_trigger e) (Digest.run w inputs p).2.
Proof.
  split_and!.
  - apply (emits_event_loop (P := fun e => no_mail e ∧ carries_sentinel e));
      [done| | |intros; apply emits_ret].
    + intros req. unfold Reply.post_agent, Reply.startAgent, Reply.setupWorkspace,
        Cli.setupWorkspace. cbv zeta.
      emits_with done. apply history_emits. by intros.
    + intros l c m. unfold Reply.onChat. emits_with done.
      split; [done|]. by eexists.
  - apply (emits_event_loop (P := fun e => no_generation e ∧ report_or_typed inputs e));
      [done| | |].
    + intros req. unfold DigestReply.post_agent, DigestReply.startAgent,
        DigestReply.setupWorkspace. cbv zeta.
      emits_with done. apply history_emits. by intros.
    + intros l c m. unfold DigestReply.onChat. cbv zeta. emits_with done.
      split; [done|]. left. cbn. rewrite <- app_assoc.
      apply starts_with_app, report_head_sentinel.
    + intros l data Hin. unfold DigestReply.onData. cbv zeta.
      destruct (trim data) as [|c cs] eqn:Etrim; [apply emits_ret|].
      apply emits_emit. split; [done|]. right. exists data. by rewrite Etrim.
  - apply (emits_event_loop (P := fun e => no_generation e ∧ only_the_trigger e));
      [done| | |intros; apply emits_ret].
    + intros req. unfold Digest.post_agent, Digest.startAgent, Digest.setupWorkspace,
        DigestReply.setupWorkspace. cbv zeta.
      emits_with done.
    + intros l c m. unfold Digest.onChat. emits_with done.
Qed.

(** ** Delivery of chat events *)

Section Delivery.

Lemma listeners_inert (listener : subscription -> list Z -> ChatMessage -> M unit)
    (wk c : list Z) (m : ChatMessage) (ls : list subscription) : ∀ q,
  (∀ l q', l ∈ ls -> wksp_id (sub_wksp l) = wk -> listener l c m q' = (Return tt, q', [])) ->
  foldr (fun l rest =>
           (if decide (wksp_id (sub_wksp l) = wk)
            then callback (listener l c m)
            else ret tt) ;; rest)
        (ret tt) ls q
  = (Return tt, q, []).
Proof.
  induction ls as [|l ls IH]; intros q Hl; [done|].
  cbn [foldr]. unfold mbind, M_bind, bind.
  assert ((if decide (wksp_id (sub_wksp l) = wk)
           then callback (listener l c m) else ret tt) q = (Return tt, q, [])) as ->.
  { case_decide; [|done]. unfold callback. by rewrite Hl by (done || by left). }
  fold (@mbind M _ unit unit). rewrite IH; [done|].
  intros l' q' Hl' Hwk. apply Hl; [by right | done].
Qed.

Lemma deliver_inert listener wk c m p :
  (∀ l q, l ∈ listeners p -> wksp_id (sub_wksp l) = wk ->
          listener l c m q = (Return tt, q, [])) ->
  deliver listener wk c m p = (Return tt, p, []).
Proof.
  intros Hl. unfold deliver, read, mbind, M_bind, bind at 1.
  fold (@mbind M _ unit unit). fold (@bind unit unit).
  pose proof (listeners_inert listener wk c m (listeners p) p Hl) as H.
  unfold mbind, M_bind in H. by rewrite H.
Qed.

End Delivery.

(** X13. A chat event reaches only the agents that asked for it: when
    no registered listener belongs to the workspace of the event and
    listens to its channel, the event changes nothing and causes no
    action, in every revision of the server. *)
Theorem unheard_chat_events_are_inert (w : World) (wk c : jsstring) (m : ChatMessage)
    (p : process) :
  (∀ l, l ∈ listeners p -> ¬ listens_to wk c l) ->
  Reply.run w [Chat wk c m] p = (Return tt, p, []) ∧
  DigestReply.run w [Chat wk c m] p = (Return tt, p, []) ∧
  Digest.run w [Chat wk c m] p = (Return tt, p, []).
Proof.
  intros Hnone.
  unfold Reply.run, DigestReply.run, Digest.run. cbn [event_loop].
  split_and!; unfold mbind, M_bind, bind; rewrite deliver_inert; try done.
  - intros l q Hl Hwk. unfold Reply.onChat. case_decide; [|done].
    destruct (Hnone l Hl). by split.
  - intros l q Hl Hwk. unfold DigestReply.onChat. case_decide; [|done].
    destruct (Hnone l Hl). by split.
  - intros l q Hl Hwk. unfold Digest.onChat. case_decide; [|done].
    destruct (Hnone l Hl). by split.
Qed.

(** A process with an agent on another channel of the workspace and an
    agent on the same channel of another workspace: neither hears a
    message on #general of w1. *)
Lemma unheard_chat_witness :
  let p := {| _activeAgent := undefined; stats := ∅;
              listeners := [{| sub_wksp := demo_wksp [] [] (str "w1");
                               sub_channel := str "random" |};
                            {| sub_wksp := demo_wksp [] [] (str "w2");
                               sub_channel := str "general" |}];
              data_listeners := [] |} in
  Reply.run (demo [] [] []) [Chat (str "w1") (str "general") (say "ping")] p
  = (Return tt, p, []) ∧
  DigestReply.run (demo [] [] []) [Chat (str "w1") (str "general") (say "ping")] p
  = (Return tt, p, []) ∧
  Digest.run (demo [] [] []) [Chat (str "w1") (str "general") (say "ping")] p
  = (Return tt, p, []).
Proof.
  cbv zeta.
  apply (unheard_chat_events_are_inert (demo [] [] []) (str "w1") (str "general")
           (say "ping")).
  intros l Hl [Hwk Hc]. cbn in Hl.
  apply elem_of_cons in Hl as [->|Hl]; [by vm_compute in Hc|].
  apply list_elem_of_singleton in Hl as ->. by vm_compute in Hwk.
Defined.

(** ** The document of the digest *)

Section Agenda.

Lemma agenda_in_files (instance : ProjectInstance) (files : list (list Z)) : ∀ found,
  foldl (fun found path =>
           if decide (path = str "/agenda.md")
           then Some (getFile instance path) else found)
        found files
  = if decide (str "/agenda.md" ∈ files)
    then Some (getFile instance (str "/agenda.md")) else found.
Proof.
  induction files as [|path files IH]; intros found; cbn [foldl].
  - by rewrite decide_False by apply not_elem_of_nil.
  - rewrite IH. destruct (decide (path = str "/agenda.md")) as [->|Hne].
    + rewrite (decide_True (P := _ ∈ _ :: _)) by left. by case_decide.
    + destruct (decide (str "/agenda.md" ∈ files)) as [Hin|Hout].
      * by rewrite decide_True by (by right).
      * rewrite decide_False; [done|]. by intros [?|?]%elem_of_cons.
Qed.

Lemma agenda_in_projects (wksp : Workspace) (projects : list (list Z)) : ∀ found,
  foldl (fun found pn =>
           let instance := proj_get wksp pn in
           foldl (fun found path =>
                    if decide (path = str "/agenda.md")
                    then Some (getFile instance path) else found)
                 found (getFileList instance))
        found projects
  = match last (filter (fun pn => str "/agenda.md" ∈ getFileList (proj_get wksp pn))
                       projects) with
    | Some pn => Some (getFile (proj_get wksp pn) (str "/agenda.md"))
    | None => found
    end.
Proof.
  induction projects as [|pn projects IH]; intros found; [done|].
  cbn [foldl]. cbv zeta. rewrite IH, agenda_in_files, filter_cons.
  case_decide; [|done]. rewrite last_cons. by destruct (last _).
Qed.

End Agenda.

(** X14. The document the digest reads is the "/agenda.md" of the last
    project, in the order of [getProjects], whose file list holds that
    path; earlier projects with an agenda are passed over, and there is
    a document exactly when some project holds one. *)
Theorem agenda_comes_from_the_last_project (wksp : Workspace) :
  fileContents wksp
  = (fun pn => getFile (proj_get wksp pn) (str "/agenda.md")) <$> last (agenda_holders wksp).
Proof.
  unfold fileContents, agenda_holders. rewrite agenda_in_projects.
  by destruct (last _).
Qed.

(** ** The window of the digest *)

Section Window.

Lemma cutText_offsets (s : list Z) :
  cutText s = match marker_offsets s 0 !! 2%nat with
              | Some p => take p s
              | None => s
              end.
Proof.
  unfold cutText, thirdHeaderPos.
  change (split s (str "##") 3) with (split_loop s (str "##") 0 3).
  rewrite join_split_loop, drop_0.
  destruct (marker_offsets s 0 !! 2%nat) as [p|].
  - rewrite Nat.sub_0_r, substring_take, length_take.
    destruct (decide (p ≤ length s)%nat); [by rewrite Nat.min_l|].
    rewrite Nat.min_r by lia. by rewrite !take_ge by lia.
  - by rewrite substring_take, firstn_all.
Qed.

Lemma filter_beyond (bound : nat) (l : list nat) :
  (∀ j, j ∈ l -> (bound < j + 2)%nat) -> filter (fun j => (j + 2 ≤ bound)%nat) l = [].
Proof.
  induction l as [|j l IH]; intros H; [done|].
  rewrite filter_cons_False by (specialize (H j ltac:(by left)); lia).
  apply IH. intros j' Hj'. apply H. by right.
Qed.

(** The markers of a prefix are the markers of the text that fit in it. *)
Lemma marker_offsets_take n : ∀ (s : list Z) off p,
  (length s ≤ n)%nat ->
  marker_offsets (take p s) off
  = filter (fun j => (j + 2 ≤ off + p)%nat) (marker_offsets s off).
Proof.
  induction n as [|n IH]; intros s off p Hn.
  - destruct s; [by rewrite take_nil | simpl in Hn; lia].
  - destruct s as [|a [|b rest]]; [by rewrite take_nil | by destruct p as [|[|p]] |].
    simpl in Hn. destruct p as [|[|p]].
    + rewrite filter_beyond; [done|].
      intros j Hj%(marker_offsets_ge _ _ _ _ (Nat.le_refl _)). lia.
    + rewrite filter_beyond; [done|].
      intros j Hj%(marker_offsets_ge _ _ _ _ (Nat.le_refl _)). lia.
    + cbn [take]. rewrite !marker_offsets_cons.
      destruct ((a =? 35) && (b =? 35)).
      * rewrite filter_cons_True by lia. rewrite IH by lia.
        by replace (off + 2 + p)%nat with (off + S (S p))%nat by lia.
      * change (b :: take p rest) with (take (S p) (b :: rest)).
        rewrite IH by (simpl; lia).
        by replace (off + 1 + S p)%nat with (off + S (S p))%nat by lia.
Qed.

(** The markers of the window are the first two markers of the text. *)
Lemma window_markers (s : list Z) :
  marker_offsets (cutText s) 0 = take 2 (marker_offsets s 0).
Proof.
  rewrite cutText_offsets.
  destruct (marker_offsets s 0 !! 2%nat) as [p3|] eqn:E.
  - rewrite (marker_offsets_take _ _ _ _ (Nat.le_refl _)). revert E.
    rewrite (marker_offsets_find s 0).
    destruct (find_from (str "##") s 0) as [j1|] eqn:F1; [|done].
    rewrite marker_offsets_find.
    destruct (find_from (str "##") (drop _ s) (j1 + 2)) as [j2|] eqn:F2; [|done].
    rewrite marker_offsets_find.
    destruct (find_from (str "##") (drop _ (drop _ s)) (j2 + 2)) as [j3|] eqn:F3; [|done].
    intros [= ->]. apply find_from_ge in F2, F3.
    rewrite filter_cons_True, filter_cons_True, filter_cons_False by lia.
    rewrite filter_beyond; [done|].
    intros j Hj%(marker_offsets_ge _ _ _ _ (Nat.le_refl _)). lia.
  - apply lookup_ge_None in E. by rewrite take_ge by lia.
Qed.

End Window.

(** X15. The window the digest cuts is an initial part of the document
    and holds exactly the first two markers "##" of it, and no third:
    it is "the first two sections".  Cutting a window again changes
    nothing. *)
Theorem digest_window_holds_two_sections (mdText : jsstring) :
  cutText mdText `prefix_of` mdText ∧
  marker_offsets (cutText mdText) 0 = take 2 (marker_offsets mdText 0) ∧
  cutText (cutText mdText) = cutText mdText.
Proof.
  split_and!.
  - rewrite cutText_offsets. destruct (_ !! _); [apply prefix_take | done].
  - apply window_markers.
  - rewrite (cutText_offsets (cutText mdText)), window_markers.
    rewrite lookup_ge_None_2; [done|]. rewrite length_take. lia.
Qed.

(** ** The command line of the client *)

Section CommandLine.

Lemma head_removelast {A} (l : list A) c : head (removelast l) = Some c -> head l = Some c.
Proof. destruct l as [|x [|y l]]; by cbn. Qed.

Lemma is_hex_digits s : Cli.is_hex s = true -> Forall hexdigit s.
Proof.
  unfold Cli.is_hex. destruct s as [|c s]; [done|].
  generalize (c :: s). clear. intros l. induction l as [|x l IH]; [constructor|].
  cbn [forallb]. intros [Hx%bool_decide_eq_true Hl]%andb_true_iff.
  constructor; [done | by apply IH].
Qed.

Lemma never_returns_try_catch {A} (m : M A) (h : error -> M A) p :
  never_returns m ->
  (∀ e q, ∃ c, (h e q).1.1 = Exit c) ->
  match (try_catch m h p).1.1 with
  | Exit _ | Forever => True
  | _ => False
  end.
Proof.
  intros Hm Hh. unfold try_catch. specialize (Hm p).
  destruct (m p) as [[o p1] t1]. cbn in Hm. destruct o as [a|e| |]; cbn; try done.
  - by destruct (Hm a).
  - destruct (Hh e p1) as [c Hc]. destruct (h e p1) as [[o2 p2] t2]. cbn in *. by subst.
Qed.

End CommandLine.

(** X16. How the client reads its command line.  The workspace is the
    first argument.  A key is taken from the command line only if it is
    the last argument and is exactly 64 hex digits, and such a key
    always decodes to 32 bytes; an e-mail address is taken only if the
    argument contains "@"; and the channel, when one is found, is the
    argument right after the workspace name. *)
Theorem command_line_roles (argv : list jsstring) :
  let a := Cli.parse argv in
  Cli.arg_wkspName a = default [] (argv !! 2%nat) ∧
  (∀ k, Cli.arg_pskHex a = Some k ->
        last (drop 3 argv) = Some k ∧ length k = 64%nat ∧ Forall hexdigit k ∧
        length (hex_decode k) = 32%nat) ∧
  (∀ e, Cli.arg_email a = Some e -> 64 ∈ e) ∧
  (∀ c, Cli.arg_channelName a = Some c -> argv !! 3%nat = Some c).
Proof.
  cbv zeta. unfold Cli.parse.
  assert (∀ c, head (drop 3 argv) = Some c -> argv !! 3%nat = Some c) as Hhead.
  { intros c. by rewrite head_lookup, lookup_drop. }
  destruct (last (drop 3 argv)) as [lastArg|] eqn:Elast.
  - destruct ((length lastArg =? 64)%nat && Cli.is_hex lastArg) eqn:Ekey.
    + apply andb_true_iff in Ekey as [Hlen%Nat.eqb_eq Hhex%is_hex_digits].
      destruct (last (removelast (drop 3 argv))) as [secondLastArg|] eqn:Esecond;
        [destruct (bool_decide (64 ∈ secondLastArg)) eqn:Eat|]; cbn;
        (split_and!;
         [ done
         | intros k [= <-]; split_and!; try done; by apply hex_digits_decode
         | intros e He; simplify_eq; try by eapply bool_decide_eq_true_1
         | intros c Hc; repeat apply head_removelast in Hc; by apply Hhead ]).
    + rewrite Elast.
      destruct (bool_decide (64 ∈ lastArg)) eqn:Eat; cbn;
        (split_and!;
         [ done
         | done
         | intros e He; simplify_eq; try by eapply bool_decide_eq_true_1
         | intros c Hc; repeat apply head_removelast in Hc; by apply Hhead ]).
  - rewrite Elast. cbn. by split_and!.
Qed.

Lemma command_line_witness :
  last (drop 3 [str "node"; str "headless.ts"; str "w1"; str "general"; str "a@b"; zero_psk])
  = Some zero_psk ∧
  length zero_psk = 64%nat ∧ Forall hexdigit zero_psk ∧ length (hex_decode zero_psk) = 32%nat.
Proof.
  apply (proj1 (proj2 (command_line_roles
           [str "node"; str "headless.ts"; str "w1"; str "general"; str "a@b"; zero_psk]))).
  reflexivity.
Defined.

Section Client.

Variable w : World.

Lemma bind_outcome {A B} (m : M A) (f : A -> M B) p a p1 t1 :
  m p = (Return a, p1, t1) -> ((m ≫= f) p).1.1 = (f a p1).1.1.
Proof.
  intros E. unfold mbind, M_bind, bind. rewrite E.
  by destruct (f a p1) as [[o p2] t2].
Qed.

Lemma parsed_key_is_checked argv k :
  Cli.arg_pskHex (Cli.parse argv) = Some k ->
  k ≠ [] ∧ length (hex_decode k) = 32%nat.
Proof.
  unfold Cli.parse.
  destruct (last (drop 3 argv)) as [lastArg|] eqn:El; [|by rewrite El].
  destruct ((length lastArg =? 64)%nat && Cli.is_hex lastArg) eqn:Ekey.
  - apply andb_true_iff in Ekey as [Hlen%Nat.eqb_eq Hhex%is_hex_digits].
    assert (Some lastArg = Some k -> k ≠ [] ∧ length (hex_decode k) = 32%nat) as Hk.
    { intros [= <-]. split; [by destruct lastArg | by apply hex_digits_decode]. }
    destruct (last (removelast (drop 3 argv))) as [s|];
      [destruct (bool_decide (64 ∈ s))|]; cbn; exact Hk.
  - rewrite El. destruct (bool_decide (64 ∈ lastArg)); by cbn.
Qed.

Lemma Cli_session_never_returns a email key :
  never_returns (A := unit)
    (emit ConnectTestbed ;;
     (if has_testbed_key w then ret tt else emit (Ndncert email)) ;;
     wksp ← Cli.setupWorkspace w (Cli.arg_wkspName a) key ;
     emit (Console (LogJoined (Cli.arg_wkspName a))) ;;
     emit (Sleep 2000) ;;
     match Cli.arg_channelName a with
     | Some ((_ :: _) as channelName) =>
         enter_channel wksp channelName ;;
         on_chat {| sub_wksp := wksp; sub_channel := channelName |} ;;
         on_data {| sub_wksp := wksp; sub_channel := channelName |} ;;
         forever
     | _ => list_channels (getChannels wksp)
     end).
Proof.
  do 5 (apply never_returns_bind; intros ?).
  destruct (Cli.arg_channelName a) as [[|c cs]|].
  - unfold list_channels. apply never_returns_bind. by intros.
  - do 3 (apply never_returns_bind; intros ?). by intros.
  - unfold list_channels. apply never_returns_bind. by intros.
Qed.

End Client.

(** X17. How the command-line client ends.  With fewer than three
    arguments it prints the usage and exits with code 1 before doing
    anything else.  It never returns: once the key has passed the check
    every path ends in [process.exit] (any failure is caught, logged as
    fatal and turned into exit code 1) or waits forever.  The only
    error that escapes it is the PSK error, and only for a key typed at
    the prompt: a key accepted from the command line always passes. *)
Theorem client_ends_by_exit (w : World) (argv : list jsstring) (p : process) :
  ((length argv < 3)%nat -> Cli.main w argv p = (Exit 1, p, [Console LogUsage])) ∧
  (∀ a, (Cli.main w argv p).1.1 ≠ Return a) ∧
  (∀ e, (Cli.main w argv p).1.1 = Throw e ->
        e = PSK_ERROR ∧ Cli.arg_pskHex (Cli.parse argv) = None ∧
        length (hex_decode (cli_pskHex w argv)) ≠ 32%nat).
Proof.
  unfold Cli.main. destruct (length argv <? 3)%nat eqn:E.
  { split_and!; [done | by intros | by intros]. }
  apply Nat.ltb_ge in E. split; [lia|]. cbv zeta.
  destruct (local_prompts w (Cli.arg_email (Cli.parse argv))
              (str "Enter email address: ") p) as (t1 & E1 & _).
  rewrite (bind_outcome _ _ _ _ _ _ E1).
  destruct (local_prompts w (Cli.arg_pskHex (Cli.parse argv))
              (str "Enter workspace PSK (32 bytes hex): ") p) as (t2 & E2 & _).
  rewrite (bind_outcome _ _ _ _ _ _ E2). fold (cli_pskHex w argv).
  destruct (length (hex_decode (cli_pskHex w argv)) =? 32)%nat eqn:Ekey; cbn [negb].
  - match goal with
    | |- context [try_catch ?m ?h p] =>
        pose proof (never_returns_try_catch m h p (Cli_session_never_returns w _ _ _)) as H
    end.
    destruct (try_catch _ _ p) as [[o q] t]. cbn in *.
    destruct o; try (destruct H; [by intros; eexists]); by split.
  - apply Nat.eqb_neq in Ekey. split; [done|]. intros e [= <-]. split_and!; try done.
    destruct (Cli.arg_pskHex (Cli.parse argv)) as [k|] eqn:Ek; [|done].
    destruct (parsed_key_is_checked _ _ Ek) as [Hne Hlen].
    unfold cli_pskHex in Ekey. rewrite Ek in Ekey. by destruct k.
Qed.

Lemma client_usage_witness :
  Cli.main (demo [] [] []) [str "node"; str "headless.ts"] (fresh ∅)
  = (Exit 1, fresh ∅, [Console LogUsage]).
Proof.
  apply (proj1 (client_ends_by_exit (demo [] [] []) [str "node"; str "headless.ts"] (fresh ∅))).
  vm_compute. lia.
Defined.

(** A full command line: workspace, channel, address and key. *)
Example client_full_command_line :
  let r := Cli.main (demo [] [] [])
             [str "node"; str "headless.ts"; str "w1"; str "general"; str "a@b"; zero_psk]
             (fresh ∅) in
  r.1.1 = Forever ∧
  sub_channel <$> listeners r.1.2 = [str "general"] ∧
  r.2 = [ConnectTestbed; Join (str "w1") (str "w1") false false (hex_decode zero_psk);
         Setup (str "w1"); Console (LogJoined (str "w1")); Sleep 2000;
         Console (LogJoinedChannel (str "general"))].
Proof. cbv zeta. by split_and!. Qed.

(** ** The digest run *)

(** X18. What a digest run of the stand-alone agent ends in, once the
    agenda has been found.  If the mail template cannot be read, the
    listener rejects with that error after the settling delay and no
    mail is sent.  Otherwise one mail with the spliced body goes to the
    transport: when the transport accepts it the whole process exits
    with code 0 (the agent is one-shot), and when it refuses the error
    is only logged and the agent stays subscribed. *)
Theorem digest_run_outcomes (w : World) (wksp : Workspace) (c : jsstring) (m : ChatMessage)
    (p : process) (mdText : jsstring) :
  fileContents wksp = Some mdText ->
  (∀ e, readFileSync w TEMPLATE = inl e ->
        Digest.onChat w wksp c c m p = (Throw e, p, [Sleep 20000])) ∧
  (∀ email, readFileSync w TEMPLATE = inr email ->
     let letter := Digest.mailOptions (splice email (markdown w (cutText mdText))) in
     Digest.onChat w wksp c c m p =
       match sendMail w letter with
       | None => (Exit 0, p, [Sleep 20000; SendMail letter; Console LogMailSent])
       | Some e => (Return tt, p, [Sleep 20000; SendMail letter; Console (LogMailError e)])
       end).
Proof.
  intros Hdoc. unfold Digest.onChat. rewrite decide_True by done. split.
  - intros e He. unfold digest_email. cbv zeta. run. rewrite Hdoc. cbn. by rewrite He.
  - intros email Hfile. cbv zeta. run.
    rewrite (digest_email_found _ _ _ _ _ Hdoc Hfile).
    by destruct (sendMail w _).
Qed.

Lemma digest_run_witness :
  Digest.onChat (demo [str "notes"] agenda_md good_template)
    (demo_wksp [str "notes"] agenda_md []) (str "general") (str "general")
    (say "input") (fresh ∅)
  = (Exit 0, fresh ∅,
     [Sleep 20000;
      SendMail (Digest.mailOptions (str "<p>Hi</p><hr># Call## A## B<hr><p>Bye</p>"));
      Console LogMailSent]).
Proof.
  apply (proj2 (digest_run_outcomes (demo [str "notes"] agenda_md good_template)
                  (demo_wksp [str "notes"] agenda_md []) (str "general") (say "input")
                  (fresh ∅) agenda_md eq_refl) good_template).
  reflexivity.
Defined.

(** ** Console input *)

Section Console.

Variable w : World.

Lemma onData_publishes (c data : jsstring) (q : process) :
  callback (DigestReply.onData w c data) q
  = (Return tt, q,
     if decide (trim data = []) then []
     else [SendMessage c {| uuid := []; user := get_identity_name w; ts := now w;
                            message := trim data |}]).
Proof.
  unfold callback, DigestReply.onData. cbv zeta.
  case_decide as Etrim; [by rewrite Etrim|]. by destruct (trim data).
Qed.

Lemma data_listeners_mute (typed : subscription -> list Z -> M unit) (data : jsstring)
    (ls : list subscription) :
  (∀ l q, callback (typed l data) q = (Return tt, q, [])) ->
  ∀ q, foldr (fun l rest => callback (typed l data) ;; rest) (ret tt) ls q
       = (Return tt, q, []).
Proof.
  intros Hmute. induction ls as [|l ls IH]; intros q; [done|].
  cbn [foldr]. unfold mbind, M_bind, bind. rewrite Hmute.
  fold (@mbind M _ unit unit). by rewrite IH.
Qed.

Lemma data_listeners_publish (data : jsstring) (ls : list subscription) : ∀ q,
  foldr (fun l rest => callback (DigestReply.onData w (sub_channel l) data) ;; rest)
        (ret tt) ls q
  = (Return tt, q,
     if decide (trim data = []) then []
     else (fun l => SendMessage (sub_channel l)
                      {| uuid := []; user := get_identity_name w; ts := now w;
                         message := trim data |}) <$> ls).
Proof.
  induction ls as [|l ls IH]; intros q.
  - by case_decide.
  - cbn [foldr]. unfold mbind, M_bind, bind. rewrite onData_publishes.
    fold (@mbind M _ unit unit). rewrite IH. by case_decide.
Qed.

Lemma deliver_data_mute (typed : subscription -> list Z -> M unit) (data : jsstring) p :
  (∀ l q, callback (typed l data) q = (Return tt, q, [])) ->
  deliver_data typed data p = (Return tt, p, []).
Proof.
  intros Hmute. unfold deliver_data, read, mbind, M_bind, bind at 1.
  fold (@mbind M _ unit unit). fold (@bind unit unit).
  pose proof (data_listeners_mute typed data (data_listeners p) Hmute p) as H.
  unfold mbind, M_bind in H. by rewrite H.
Qed.

Lemma deliver_data_publish (data : jsstring) p :
  deliver_data (fun l => DigestReply.onData w (sub_channel l)) data p
  = (Return tt, p,
     if decide (trim data = []) then []
     else (fun l => SendMessage (sub_channel l)
                      {| uuid := []; user := get_identity_name w; ts := now w;
                         message := trim data |}) <$> data_listeners p).
Proof.
  unfold deliver_data, read, mbind, M_bind, bind at 1.
  fold (@mbind M _ unit unit). fold (@bind unit unit).
  pose proof (data_listeners_publish data (data_listeners p) p) as H.
  unfold mbind, M_bind in H. by rewrite H.
Qed.

End Console.

(** X19. Console input.  In the replying digest agent every chunk read
    from stdin is trimmed and, unless nothing is left of it, published
    as it is, without the sentinel: once for every agent started so
    far, on that agent's channel, oldest first.  Nothing else happens.
    The AI-reply server and the stand-alone digest server register no
    listener on stdin and ignore the input. *)
Theorem console_input_is_published (w : World) (data : jsstring) (p : process) :
  DigestReply.run w [Stdin data] p
  = (Return tt, p,
     if decide (trim data = []) then []
     else (fun l => SendMessage (sub_channel l)
                      {| uuid := []; user := get_identity_name w; ts := now w;
                         message := trim data |}) <$> data_listeners p) ∧
  Reply.run w [Stdin data] p = (Return tt, p, []) ∧
  Digest.run w [Stdin data] p = (Return tt, p, []).
Proof.
  unfold DigestReply.run, Reply.run, Digest.run. cbn [event_loop].
  split_and!; unfold mbind, M_bind, bind.
  - rewrite deliver_data_publish. cbn. by rewrite app_nil_r.
  - by rewrite deliver_data_mute.
  - by rewrite deliver_data_mute.
Qed.

(** Two agents started one after the other, then a line typed at the
    console: it goes out twice, once for each agent. *)
Example console_line_after_two_starts :
  let meta := {| ignore := true; meta_rest := [] |} in
  let r := DigestReply.run (demo [] [] [])
             [Post (start "w1"); Post (start "w2"); Stdin (str "  hello " ++ nl)]
             (fresh (<[ str "w1" := meta ]> (<[ str "w2" := meta ]> ∅))) in
  trim (str "  hello " ++ nl) = str "hello" ∧
  (fun l => (wksp_id (sub_wksp l), sub_channel l)) <$> data_listeners r.1.2
  = [(str "w1", str "general"); (str "w2", str "general")] ∧
  drop 12 r.2
  = [SendMessage (str "general")
       {| uuid := []; user := str "bot"; ts := 0; message := str "hello" |};
     SendMessage (str "general")
       {| uuid := []; user := str "bot"; ts := 0; message := str "hello" |}].
Proof. cbv zeta. by split_and!. Qed.
